(** * BASP instance: a shallow embedding of [libcaf_io/src/instance.cpp]

    The protocol engine of the Binary Actor System Protocol: the receive
    state machine [handle], the outbound writers built on [write], the
    published-actor registry and [dispatch].

    State is passed explicitly.  The members of [instance] are fields of a
    record; the broker's per-connection write buffers and the sequence of
    calls made on the callee, the hooks and the broker are kept next to
    them, so that statements about what was called, how often and in which
    order can be made about the returned state. *)

From Stdlib Require Import ZArith List Lia Bool.
From Stdlib Require Strings.Byte.
From stdpp Require Import base numbers option list gmap sets strings fin_maps.

Open Scope Z_scope.

(** ** Bytes and the binary codec *)

(** [buffer_type] is [std::vector<char>]. *)
Definition buffer_type : Type := list Byte.byte.

#[global] Instance byte_eq_dec : EqDecision Byte.byte := Byte.byte_eq_dec.

#[global] Program Instance byte_countable : Countable Byte.byte :=
  inj_countable Byte.to_N Byte.of_N _.
Next Obligation. intros b. apply Byte.of_to_N. Qed.

Definition byte_of_Z (z : Z) : Byte.byte :=
  default Byte.x00 (Byte.of_N (Z.to_N (z mod 256))).

Definition Z_of_byte (b : Byte.byte) : Z := Z.of_N (Byte.to_N b).

(** Modelled from the spec: [binary_serializer] and [binary_deserializer]
    are not in the source tree.  Section 3 and section 6 of the
    specification fix the format: every integer field has a fixed width
    and is written in network byte order.  [put_uint k z] writes the low
    [k] bytes of [z], most significant first, which is also what the
    conversion of a wider C++ value to a [k]-byte unsigned field keeps. *)
Fixpoint put_uint (k : nat) (z : Z) : buffer_type :=
  match k with
  | O => []
  | S k' => byte_of_Z (Z.shiftr z (8 * Z.of_nat k')) :: put_uint k' z
  end.

(** Modelled from the spec: the reading side of the same codec.  Reading
    [k] bytes from a buffer that holds fewer fails ([None]). *)
Fixpoint get_uint_from (k : nat) (acc : Z) (bs : buffer_type)
  : option (Z * buffer_type) :=
  match k with
  | O => Some (acc, bs)
  | S k' =>
      match bs with
      | [] => None
      | b :: bs' => get_uint_from k' (acc * 256 + Z_of_byte b) bs'
      end
  end.

Definition get_uint (k : nat) (bs : buffer_type) : option (Z * buffer_type) :=
  get_uint_from k 0 bs.

(** The unsigned value range of a [k]-byte field. *)
Definition uint_range (k : nat) (z : Z) : Prop :=
  0 <= z < 2 ^ (8 * Z.of_nat k).

(** Conversions to the fixed-width unsigned types of the source. *)
Definition to_uint32 (z : Z) : Z := z mod 2 ^ 32.
Definition to_uint64 (z : Z) : Z := z mod 2 ^ 64.

(** ** Identifiers *)

(** Modelled from the spec: [node_id] is declared outside the source
    tree.  Section 3: an opaque byte string plus a process-instance tag,
    with a distinguished invalid value.  The byte string has a fixed
    length (the header has a fixed size); it is kept as the unsigned
    number its bytes denote. *)
Record node_id : Type := mk_node_id { host_id : Z; process_id : Z }.

#[global] Instance node_id_eq_dec : EqDecision node_id.
Proof. solve_decision. Defined.

#[global] Program Instance node_id_countable : Countable node_id :=
  inj_countable' (fun n => (host_id n, process_id n))
                 (fun p => mk_node_id p.1 p.2) _.
Next Obligation. by intros []. Qed.

Definition invalid_node_id : node_id := mk_node_id 0 0.

(** Modelled from the spec: the length of the byte string of a node id
    is not given; nothing below depends on the value chosen here. *)
Definition host_id_size : nat := 20.
Definition process_id_size : nat := 4.

Definition node_id_wf (n : node_id) : Prop :=
  uint_range host_id_size (host_id n) /\
  uint_range process_id_size (process_id n).

(** Modelled from the spec: a connection handle is an opaque identifier
    issued by the broker, with a distinguished invalid value. *)
Definition connection_handle : Type := Z.
Definition invalid_connection_handle : connection_handle := -1.

(** Modelled from the spec: [actor_id] is a 32-bit unsigned integer and
    0 is the invalid id. *)
Definition actor_id : Type := Z.
Definition invalid_actor_id : actor_id := 0.

(** Modelled from the spec: an actor address pairs an actor id with a
    node id.  A C++ [actor_addr] may also be null, which the source tests
    with [sender ? ... : ...]; a possibly-null address is an [option]. *)
Record abstract_actor : Type := mk_actor { aa_id : actor_id; aa_node : node_id }.

#[global] Instance abstract_actor_eq_dec : EqDecision abstract_actor.
Proof. solve_decision. Defined.

Definition actor_addr : Type := option abstract_actor.

(** ** Header *)

(** Modelled from the spec: [message_type] is declared in a header that
    is not in the source tree; its values are numbered in the order in
    which section 3 lists them.  The field is kept as the raw number,
    because [handle] has a [default:] case for values outside the
    enumeration. *)
Definition message_type : Type := Z.
Definition server_handshake : message_type := 0.
Definition client_handshake : message_type := 1.
Definition dispatch_message : message_type := 2.
Definition announce_proxy_instance : message_type := 3.
Definition kill_proxy_instance : message_type := 4.
Definition heartbeat : message_type := 5.

(** The fields of [basp::header], in the order of its brace
    initialisers in the source. *)
Record header : Type := mk_header {
  operation : message_type;
  payload_len : Z;
  operation_data : Z;
  source_node : node_id;
  dest_node : node_id;
  source_actor : actor_id;
  dest_actor : actor_id
}.

Definition set_payload_len (h : header) (n : Z) : header :=
  mk_header (operation h) n (operation_data h) (source_node h) (dest_node h)
            (source_actor h) (dest_actor h).

Definition header_wf (h : header) : Prop :=
  uint_range 1 (operation h) /\
  uint_range 4 (payload_len h) /\
  uint_range 8 (operation_data h) /\
  node_id_wf (source_node h) /\
  node_id_wf (dest_node h) /\
  uint_range 4 (source_actor h) /\
  uint_range 4 (dest_actor h).

Definition put_node_id (n : node_id) : buffer_type :=
  put_uint host_id_size (host_id n) ++ put_uint process_id_size (process_id n).

Definition get_node_id (bs : buffer_type) : option (node_id * buffer_type) :=
  match get_uint host_id_size bs with
  | None => None
  | Some (h, bs1) =>
      match get_uint process_id_size bs1 with
      | None => None
      | Some (p, bs2) => Some (mk_node_id h p, bs2)
      end
  end.

(** The field sequence that [instance::write] streams into its
    serializer: [source_node << dest_node << source_actor << dest_actor
    << payload_len << operation << operation_data]. *)
Definition put_header_fields (source_node dest_node : node_id)
    (source_actor dest_actor : actor_id) (plen : Z)
    (operation : message_type) (operation_data : Z) : buffer_type :=
  put_node_id source_node ++ put_node_id dest_node ++
  put_uint 4 source_actor ++ put_uint 4 dest_actor ++
  put_uint 4 plen ++ put_uint 1 operation ++ put_uint 8 operation_data.

(** Modelled from the spec: [bs << hdr], the serialization operator of
    [header], is defined outside the source tree.  Section 4.1 gives it
    the field order that [instance::write] uses. *)
Definition put_header (h : header) : buffer_type :=
  put_header_fields (source_node h) (dest_node h) (source_actor h)
    (dest_actor h) (payload_len h) (operation h) (operation_data h).

(** Modelled from the spec: [bd >> hdr], the inverse of [put_header]. *)
Definition get_header (bs : buffer_type) : option (header * buffer_type) :=
  match get_node_id bs with
  | None => None
  | Some (sn, b1) =>
  match get_node_id b1 with
  | None => None
  | Some (dn, b2) =>
  match get_uint 4 b2 with
  | None => None
  | Some (sa, b3) =>
  match get_uint 4 b3 with
  | None => None
  | Some (da, b4) =>
  match get_uint 4 b4 with
  | None => None
  | Some (pl, b5) =>
  match get_uint 1 b5 with
  | None => None
  | Some (op, b6) =>
  match get_uint 8 b6 with
  | None => None
  | Some (od, b7) => Some (mk_header op pl od sn dn sa da, b7)
  end end end end end end end.

(** [basp::header_size]: the size of a serialized header. *)
Definition header_size : nat :=
  ((host_id_size + process_id_size) * 2 + 4 + 4 + 4 + 1 + 8)%nat.

(** Modelled from the spec: [is_handshake] and [is_heartbeat] are
    declared with [header]; section 4.5 step 3 uses them for "the
    operation is a handshake" and "the operation is a heartbeat". *)
Definition is_handshake (h : header) : bool :=
  (operation h =? server_handshake) || (operation h =? client_handshake).

Definition is_heartbeat (h : header) : bool := operation h =? heartbeat.

(** ** Routing table *)

#[global] Instance connection_handle_eq_dec : EqDecision connection_handle :=
  Z.eq_dec.
#[global] Instance connection_handle_countable : Countable connection_handle :=
  Z_countable.

(** Modelled from the spec: [routing_table] is implemented outside the
    source tree.  Section 3 gives its contents: the direct routes in both
    directions and, per target node, the set of next hops that offer an
    indirect route. *)
Record routing_table : Type := mk_routing_table {
  direct_by_hdl_ : gmap connection_handle node_id;
  direct_by_nid_ : gmap node_id connection_handle;
  indirect_ : gmap node_id (gset node_id)
}.

(** A route names the next hop and its connection; [wr_buf] of the C++
    struct is a reference to the broker's write buffer of [hdl]. *)
Record route : Type := mk_route { next_hop : node_id; hdl : connection_handle }.

(** Modelled from the spec: [lookup_direct(n)] is the handle of [n] or
    the invalid handle. *)
Definition lookup_direct_nid (tbl : routing_table) (nid : node_id)
  : connection_handle :=
  default invalid_connection_handle (direct_by_nid_ tbl !! nid).

(** Modelled from the spec: [lookup_direct(h)] is the node of [h] or the
    invalid node id. *)
Definition lookup_direct_hdl (tbl : routing_table) (h : connection_handle)
  : node_id :=
  default invalid_node_id (direct_by_hdl_ tbl !! h).

Definition has_direct (tbl : routing_table) (nid : node_id) : bool :=
  bool_decide (lookup_direct_nid tbl nid ≠ invalid_connection_handle).

(** Modelled from the spec: [lookup(n)] is the direct route if there is
    one, otherwise a route over an element of [indirect[n]] whose own
    direct lookup succeeds, otherwise nothing. *)
Definition lookup (tbl : routing_table) (target : node_id) : option route :=
  if has_direct tbl target
  then Some (mk_route target (lookup_direct_nid tbl target))
  else
    match filter (fun hop => has_direct tbl hop = true)
                 (elements (default ∅ (indirect_ tbl !! target))) with
    | [] => None
    | hop :: _ => Some (mk_route hop (lookup_direct_nid tbl hop))
    end.

(** Modelled from the spec: [add_direct(h, n)] enters the pair in both
    direct maps. *)
Definition add_direct (tbl : routing_table) (h : connection_handle)
    (nid : node_id) : routing_table :=
  mk_routing_table (<[h := nid]> (direct_by_hdl_ tbl))
                   (<[nid := h]> (direct_by_nid_ tbl))
                   (indirect_ tbl).

(** Modelled from the spec: [add_indirect(hop, n)] adds [hop] to the
    next-hop set of [n] and returns true iff [n] had no indirect route
    before. *)
Definition add_indirect (tbl : routing_table) (hop dest : node_id)
  : routing_table * bool :=
  let hops := default ∅ (indirect_ tbl !! dest) in
  (mk_routing_table (direct_by_hdl_ tbl) (direct_by_nid_ tbl)
                    (<[dest := hops ∪ {[hop]}]> (indirect_ tbl)),
   bool_decide (hops = ∅)).

(** Modelled from the spec: [erase_indirect(n)] drops the indirect entry
    of [n] and returns true iff there was one. *)
Definition erase_indirect (tbl : routing_table) (dest : node_id)
  : routing_table * bool :=
  (mk_routing_table (direct_by_hdl_ tbl) (direct_by_nid_ tbl)
                    (delete dest (indirect_ tbl)),
   bool_decide (is_Some (indirect_ tbl !! dest))).

(** Modelled from the spec: [erase_direct(h, on_lost_node)] removes the
    direct entry of [h], removes its node from every next-hop set, drops
    the sets that became empty, and reports every node that is
    unreachable afterwards (section 4.2, scenario S6).  The second
    component lists the nodes passed to the callback, in call order; a
    handle without a direct entry leaves the table as it is. *)
Definition erase_direct (tbl : routing_table) (h : connection_handle)
  : routing_table * list node_id :=
  match direct_by_hdl_ tbl !! h with
  | None => (tbl, [])
  | Some nid =>
      let by_nid := delete nid (direct_by_nid_ tbl) in
      let swept :=
        filter (fun kv : node_id * gset node_id => kv.2 ≠ ∅)
               ((fun hops : gset node_id => hops ∖ {[nid]}) <$> indirect_ tbl) in
      let via_nid :=
        dom (filter (fun kv : node_id * gset node_id => nid ∈ kv.2)
                    (indirect_ tbl)) in
      (mk_routing_table (delete h (direct_by_hdl_ tbl)) by_nid swept,
       filter (fun x => by_nid !! x = None ∧ swept !! x = None)
              (nid :: elements (via_nid ∖ {[nid]})))
  end.

(** ** The instance and its collaborators *)

Inductive connection_state : Type :=
  | await_header
  | await_payload
  | close_connection.

#[global] Instance connection_state_eq_dec : EqDecision connection_state.
Proof. solve_decision. Defined.

(** [new_data_msg]: the chunk handed over by the broker and the
    connection it arrived on. *)
Record new_data_msg : Type := mk_new_data_msg {
  handle_ : connection_handle;
  buf : buffer_type
}.

(** A [payload_writer] receives a serializer that appends to the buffer;
    it is represented by the bytes it appends. *)
Definition payload_writer : Type := buffer_type.

(** [published_actor] is [std::pair<actor_addr, std::set<std::string>>]. *)
Definition published_actor : Type := (actor_addr * gset string)%type.

(** Modelled from the spec: the value of [error_code::no_route_to_destination]
    is declared outside the source tree. *)
Definition no_route_to_destination : Z := 1.

(** Modelled from the spec: [MAX_PAYLOAD] does not occur in the source;
    it is taken as the largest value the 32-bit [payload_len] can hold. *)
Definition MAX_PAYLOAD : Z := 2 ^ 32 - 1.

Section Instance.

(** [caf::message]; its content is opaque to the engine. *)
Context {message : Type}.

(** Every call the engine makes on a collaborator, in call order: the
    upcalls on [callee_], the hook notifications, [flush] on the broker,
    the [removed_published_actor] callback, and the hand-over of a
    connection to [tbl_.erase_direct]. *)
Inductive call : Type :=
  | purge_state (nid : node_id)
  | finalize_handshake (nid : node_id) (aid : actor_id) (sigs : gset string)
  | learned_new_node_directly (nid : node_id) (was_indirect : bool)
  | learned_new_node_indirectly (nid : node_id)
  | deliver (src_node : node_id) (src_actor : actor_id)
            (dst_node : node_id) (dst_actor : actor_id) (mid : Z)
            (forwarding_stack : list actor_addr) (msg : message)
  | proxy_announced (nid : node_id) (aid : actor_id)
  | kill_proxy (nid : node_id) (aid : actor_id) (rsn : Z)
  | callee_handle_heartbeat (nid : node_id)
  | tbl_erase_direct (h : connection_handle)
  | broker_flush (h : connection_handle)
  | hook_message_forwarded (hdr : header) (payload : option buffer_type)
  | hook_message_forwarding_failed (hdr : header) (payload : option buffer_type)
  | hook_message_sending_failed (sender : actor_addr) (receiver : abstract_actor)
                                (mid : Z) (msg : message)
  | hook_message_sent (sender : actor_addr) (hop : node_id)
                      (receiver : abstract_actor) (mid : Z) (msg : message)
  | removed_published_actor (whom : actor_addr) (port : Z).

(** The members of [basp::instance] ([tbl_], [this_node_],
    [published_actors_]), the write buffers of the broker that
    [tbl_.parent_->wr_buf(hdl)] refers to, and the calls made so far. *)
Record instance : Type := mk_instance {
  tbl_ : routing_table;
  this_node_ : node_id;
  published_actors_ : gmap Z published_actor;
  wr_bufs_ : gmap connection_handle buffer_type;
  calls_ : list call
}.

Definition set_tbl (st : instance) (tbl : routing_table) : instance :=
  mk_instance tbl (this_node_ st) (published_actors_ st) (wr_bufs_ st)
              (calls_ st).

Definition set_published_actors (st : instance) (pa : gmap Z published_actor)
  : instance :=
  mk_instance (tbl_ st) (this_node_ st) pa (wr_bufs_ st) (calls_ st).

(** The content of the broker's write buffer of [h]. *)
Definition wr_buf (st : instance) (h : connection_handle) : buffer_type :=
  default [] (wr_bufs_ st !! h).

Definition set_wr_buf (st : instance) (h : connection_handle)
    (b : buffer_type) : instance :=
  mk_instance (tbl_ st) (this_node_ st) (published_actors_ st)
              (<[h := b]> (wr_bufs_ st)) (calls_ st).

(** Record calls, oldest first. *)
Definition do_calls (st : instance) (cs : list call) : instance :=
  mk_instance (tbl_ st) (this_node_ st) (published_actors_ st) (wr_bufs_ st)
              (calls_ st ++ cs).

(** Code of the repository that the engine calls and that is not in the
    source tree; the statements below hold for every choice. *)

(** [valid(hdr)], the header check of section 4.1. *)
Variable valid : header -> bool.

(** [bd >> aid >> sigs] on a handshake payload; [None] when the
    deserializer fails. *)
Variable read_handshake_payload : buffer_type -> option (actor_id * gset string).

(** [bd >> forwarding_stack >> msg] on a dispatch payload. *)
Variable read_dispatch_payload :
  buffer_type -> option (list actor_addr * message).

(** [sink << forwarding_stack << msg]. *)
Variable write_dispatch_payload : list actor_addr -> message -> buffer_type.

(** ** Outbound writers *)

(** [char placeholder[basp::header_size]]: the reserved region.  Its
    content is indeterminate in the source and is overwritten before
    [write] returns. *)
Definition placeholder : buffer_type := replicate header_size Byte.x00.

(** A serializer constructed on [buf.begin() + pos] stores over the
    bytes that are already there. *)
Definition overwrite (b : buffer_type) (pos : nat) (bytes : buffer_type)
  : buffer_type :=
  take pos b ++ bytes ++ drop (pos + length bytes) b.

(** [instance::write] with the header given field by field.  The second
    component is the value stored through [payload_len], when the source
    stores one. *)
Definition write (b : buffer_type) (operation : message_type)
    (operation_data : Z) (source_node dest_node : node_id)
    (source_actor dest_actor : actor_id) (pw : option payload_writer)
  : buffer_type * option Z :=
  match pw with
  | None =>
      (b ++ put_header_fields source_node dest_node source_actor dest_actor
              0 operation operation_data, None)
  | Some w =>
      let wr_pos := length b in
      let b1 := b ++ placeholder in
      let pl_pos := length b1 in
      let b2 := b1 ++ w in
      let plen := to_uint32 (Z.of_nat (length b2 - pl_pos)) in
      (overwrite b2 wr_pos
         (put_header_fields source_node dest_node source_actor dest_actor
            plen operation operation_data),
       Some plen)
  end.

(** [instance::write(ctx, buf, hdr, pw)]: [hdr.payload_len] is passed by
    address and receives the length of the payload written. *)
Definition write_hdr (b : buffer_type) (hdr : header)
    (pw : option payload_writer) : buffer_type * header :=
  let '(b', plen) :=
    write b (operation hdr) (operation_data hdr) (source_node hdr)
          (dest_node hdr) (source_actor hdr) (dest_actor hdr) pw in
  (b', match plen with Some n => set_payload_len hdr n | None => hdr end).

Definition write_client_handshake (st : instance) (b : buffer_type)
    (remote_side : node_id) : buffer_type :=
  (write b client_handshake 0 (this_node_ st) remote_side
         invalid_actor_id invalid_actor_id None).1.

Definition write_dispatch_error (b : buffer_type)
    (source_node dest_node : node_id) (ec : Z) (original_hdr : header)
    (payload : option buffer_type) : buffer_type :=
  let writer := put_header original_hdr ++ default [] payload in
  let hdr := mk_header kill_proxy_instance 0 (to_uint64 ec)
                       source_node dest_node
                       invalid_actor_id invalid_actor_id in
  (write_hdr b hdr (Some writer)).1.

(** [rsn] is an [exit_reason]; the source converts it with
    [static_cast<uint32_t>].  The call [write(ctx, buf, hdr)] passes no
    payload writer. *)
Definition write_kill_proxy_instance (st : instance) (b : buffer_type)
    (dest_node : node_id) (aid : actor_id) (rsn : Z) : buffer_type :=
  let hdr := mk_header kill_proxy_instance 0 (to_uint32 rsn)
                       (this_node_ st) dest_node aid invalid_actor_id in
  (write_hdr b hdr None).1.

Definition write_heartbeat (st : instance) (b : buffer_type)
    (remote_side : node_id) : buffer_type :=
  (write b heartbeat 0 (this_node_ st) remote_side
         invalid_actor_id invalid_actor_id None).1.

(** ** The inbound handler *)

(** What a call of [handle] ends with: a returned connection state, or
    an exception of a deserializer that [handle] does not catch. *)
Inductive handle_result : Type :=
  | returns (cs : connection_state)
  | throws.

(** The [err] function object of [handle]: the cleanup of the
    connection, with [purge_state] as the callback of [erase_direct]. *)
Definition err (st : instance) (h : connection_handle)
  : instance * handle_result :=
  let '(tbl', lost) := erase_direct (tbl_ st) h in
  (do_calls (set_tbl st tbl') (tbl_erase_direct h :: map purge_state lost),
   returns close_connection).

(** The condition of the "needs forwarding?" test. *)
Definition needs_forwarding (st : instance) (hdr : header) : bool :=
  negb (is_handshake hdr) && negb (is_heartbeat hdr)
  && bool_decide (dest_node hdr ≠ this_node_ st).

(** The body of the forwarding branch, up to its [return await_header]. *)
Definition handle_forward (st : instance) (hdr : header)
    (payload : option buffer_type) : instance :=
  match lookup (tbl_ st) (dest_node hdr) with
  | Some path =>
      let st1 :=
        set_wr_buf st (hdl path)
          (wr_buf st (hdl path) ++ put_header hdr ++ default [] payload) in
      do_calls st1 [broker_flush (hdl path); hook_message_forwarded hdr payload]
  | None =>
      let st1 :=
        if bool_decide (source_node hdr ≠ this_node_ st) then
          match lookup (tbl_ st) (source_node hdr) with
          | None => st
          | Some reverse_path =>
              set_wr_buf st (hdl reverse_path)
                (write_dispatch_error (wr_buf st (hdl reverse_path))
                   (this_node_ st) (source_node hdr)
                   no_route_to_destination hdr payload)
          end
        else st in
      do_calls st1 [hook_message_forwarding_failed hdr payload]
  end.

(** The [payload_valid] function object of [handle]. *)
Definition payload_valid (hdr : header) (payload : option buffer_type) : bool :=
  match payload with
  | None => false
  | Some p => bool_decide (Z.of_nat (length p) = payload_len hdr)
  end.

(** The [aid] and [sigs] of the [server_handshake] case: read from the
    payload if [payload_valid()], otherwise the invalid actor id and no
    signatures. *)
Definition handshake_payload (hdr : header) (payload : option buffer_type)
  : option (actor_id * gset string) :=
  if payload_valid hdr payload
  then read_handshake_payload (default [] payload)
  else Some (invalid_actor_id, ∅).

(** The [switch (hdr.operation)] of [handle] with the final
    [return await_header].  [message_id::from_integer_value] keeps the
    64-bit value; [static_cast<exit_reason>] keeps the low 32 bits,
    [exit_reason] being a 32-bit value in the specification (section 9;
    its declaration is not in the source tree). *)
Definition handle_operation (st : instance) (dm : new_data_msg)
    (hdr : header) (payload : option buffer_type)
  : instance * handle_result :=
  if operation hdr =? server_handshake then
    match handshake_payload hdr payload with
    | None => (st, throws)
    | Some (aid, sigs) =>
        if bool_decide (source_node hdr = this_node_ st) then
          err (do_calls st [finalize_handshake (source_node hdr) aid sigs])
              (handle_ dm)
        else if has_direct (tbl_ st) (source_node hdr) then
          err (do_calls st [finalize_handshake (source_node hdr) aid sigs])
              (handle_ dm)
        else
          let tbl1 := add_direct (tbl_ st) (handle_ dm) (source_node hdr) in
          let '(tbl2, was_indirect) := erase_indirect tbl1 (source_node hdr) in
          let st2 := set_tbl st tbl2 in
          match lookup tbl2 (source_node hdr) with
          | None => err st2 (handle_ dm)
          | Some path =>
              let st3 :=
                set_wr_buf st2 (hdl path)
                  (write_client_handshake st2 (wr_buf st2 (hdl path))
                     (source_node hdr)) in
              (do_calls st3
                 [learned_new_node_directly (source_node hdr) was_indirect;
                  finalize_handshake (source_node hdr) aid sigs;
                  broker_flush (hdl path)],
               returns await_header)
          end
    end
  else if operation hdr =? client_handshake then
    if has_direct (tbl_ st) (source_node hdr) then (st, returns await_header)
    else
      let tbl1 := add_direct (tbl_ st) (handle_ dm) (source_node hdr) in
      let '(tbl2, was_indirect) := erase_indirect tbl1 (source_node hdr) in
      (do_calls (set_tbl st tbl2)
         [learned_new_node_directly (source_node hdr) was_indirect],
       returns await_header)
  else if operation hdr =? dispatch_message then
    if negb (payload_valid hdr payload) then err st (handle_ dm)
    else
      let last_hop := lookup_direct_hdl (tbl_ st) (handle_ dm) in
      let st1 :=
        if bool_decide (source_node hdr ≠ invalid_node_id)
           && bool_decide (source_node hdr ≠ this_node_ st)
           && bool_decide (last_hop ≠ source_node hdr)
           && negb (has_direct (tbl_ st) (source_node hdr))
        then
          let '(tbl1, added) :=
            add_indirect (tbl_ st) last_hop (source_node hdr) in
          if added
          then do_calls (set_tbl st tbl1)
                 [learned_new_node_indirectly (source_node hdr)]
          else set_tbl st tbl1
        else st in
      match read_dispatch_payload (default [] payload) with
      | None => (st1, throws)
      | Some (forwarding_stack, msg) =>
          (do_calls st1
             [deliver (source_node hdr) (source_actor hdr)
                      (dest_node hdr) (dest_actor hdr)
                      (operation_data hdr) forwarding_stack msg],
           returns await_header)
      end
  else if operation hdr =? announce_proxy_instance then
    (do_calls st [proxy_announced (source_node hdr) (dest_actor hdr)],
     returns await_header)
  else if operation hdr =? kill_proxy_instance then
    (do_calls st [kill_proxy (source_node hdr) (source_actor hdr)
                             (to_uint32 (operation_data hdr))],
     returns await_header)
  else if operation hdr =? heartbeat then
    (do_calls st [callee_handle_heartbeat (source_node hdr)],
     returns await_header)
  else err st (handle_ dm).

(** [handle] from the "needs forwarding?" test on: the frame is
    complete, [payload] is null when the header announced no payload. *)
Definition handle_frame (st : instance) (dm : new_data_msg) (hdr : header)
    (payload : option buffer_type) : instance * handle_result :=
  if needs_forwarding st hdr
  then (handle_forward st hdr payload, returns await_header)
  else handle_operation st dm hdr payload.

(** The first part of [handle], which settles what the chunk is: with
    [is_payload] the payload of the header in the cell, otherwise a
    serialized header. *)
Inductive framing : Type :=
  | unreadable_header
  | invalid_frame (hdr : header)
  | incomplete_frame (hdr : header)
  | complete_frame (hdr : header) (payload : option buffer_type).

Definition handle_framing (dm : new_data_msg) (hdr : header)
    (is_payload : bool) : framing :=
  if is_payload then
    if bool_decide (Z.of_nat (length (buf dm)) ≠ payload_len hdr)
    then invalid_frame hdr
    else complete_frame hdr (Some (buf dm))
  else
    match get_header (buf dm) with
    | None => unreadable_header
    | Some (hdr', _) =>
        if negb (valid hdr') then invalid_frame hdr'
        else if 0 <? payload_len hdr' then incomplete_frame hdr'
        else complete_frame hdr' None
    end.

(** [instance::handle].  [hdr] is the header cell of the connection,
    passed by reference; its content after the call is the second
    component of the result. *)
Definition handle (st : instance) (dm : new_data_msg) (hdr : header)
    (is_payload : bool) : instance * header * handle_result :=
  match handle_framing dm hdr is_payload with
  | unreadable_header => (st, hdr, throws)
  | invalid_frame hdr' =>
      let '(st', r) := err st (handle_ dm) in (st', hdr', r)
  | incomplete_frame hdr' => (st, hdr', returns await_payload)
  | complete_frame hdr' payload =>
      let '(st', r) := handle_frame st dm hdr' payload in (st', hdr', r)
  end.

(** ** Published actors and dispatch *)

(** The loop of [remove_published_actor] for [port == 0], over the
    entries of the map in iteration order.  [cb] tells whether the
    callback pointer is non-null. *)
Fixpoint remove_published_actor_loop (whom : actor_addr) (cb : bool)
    (entries : list (Z * published_actor)) (st : instance) (result : nat)
  : instance * nat :=
  match entries with
  | [] => (st, result)
  | (p, pa) :: rest =>
      if bool_decide (pa.1 = whom) then
        let st1 :=
          if cb then do_calls st [removed_published_actor whom p] else st in
        remove_published_actor_loop whom cb rest
          (set_published_actors st1 (delete p (published_actors_ st1)))
          (S result)
      else remove_published_actor_loop whom cb rest st result
  end.

(** [instance::remove_published_actor(whom, port, cb)]. *)
Definition remove_published_actor (st : instance) (whom : actor_addr)
    (port : Z) (cb : bool) : instance * nat :=
  if bool_decide (port ≠ 0) then
    match published_actors_ st !! port with
    | Some pa =>
        if bool_decide (pa.1 = whom) then
          let st1 :=
            if cb then do_calls st [removed_published_actor whom port]
            else st in
          (set_published_actors st1 (delete port (published_actors_ st1)),
           1%nat)
        else (st, 0%nat)
    | None => (st, 0%nat)
    end
  else
    remove_published_actor_loop whom cb (map_to_list (published_actors_ st))
                                st 0%nat.

(** [instance::dispatch].  [receiver] is dereferenced without a test in
    the source, so it is a non-null address here. *)
Definition dispatch (st : instance) (sender : actor_addr)
    (forwarding_stack : list actor_addr) (receiver : abstract_actor)
    (mid : Z) (msg : message) : instance * bool :=
  match lookup (tbl_ st) (aa_node receiver) with
  | None =>
      (do_calls st [hook_message_sending_failed sender receiver mid msg],
       false)
  | Some path =>
      let writer := write_dispatch_payload forwarding_stack msg in
      let hdr :=
        mk_header dispatch_message 0 mid
          (match sender with Some s => aa_node s | None => this_node_ st end)
          (aa_node receiver)
          (match sender with Some s => aa_id s | None => invalid_actor_id end)
          (aa_id receiver) in
      let '(b, _) := write_hdr (wr_buf st (hdl path)) hdr (Some writer) in
      (do_calls (set_wr_buf st (hdl path) b)
         [broker_flush (hdl path);
          hook_message_sent sender (next_hop path) receiver mid msg],
       true)
  end.

(** Modelled from the spec: the reader of the broker is not in the
    source tree.  Section 6: it delivers chunks of exactly the requested
    length, [header_size] bytes first and then, when [handle] answers
    [await_payload], [payload_len] bytes.  The result is the frame that
    [handle] goes on to process, its payload, and the bytes that were
    not consumed. *)
Definition receive_frame (h : connection_handle) (cell : header)
    (stream : buffer_type) : option (header * buffer_type * buffer_type) :=
  let rest := drop header_size stream in
  match handle_framing (mk_new_data_msg h (take header_size stream))
                       cell false with
  | complete_frame hdr None => Some (hdr, [], rest)
  | incomplete_frame hdr =>
      let n := Z.to_nat (payload_len hdr) in
      match handle_framing (mk_new_data_msg h (take n rest)) hdr true with
      | complete_frame hdr' (Some p) => Some (hdr', p, drop n rest)
      | _ => None
      end
  | _ => None
  end.

End Instance.

Arguments call : clear implicits.
Arguments instance : clear implicits.

(** ** Observations on the recorded calls *)

(** The calls recorded in [st'] after those of [st]. *)
Definition new_calls {message : Type} (st st' : instance message)
  : list (call message) :=
  drop (length (calls_ st)) (calls_ st').

Definition is_finalize_handshake {message : Type} (c : call message) : bool :=
  match c with finalize_handshake _ _ _ => true | _ => false end.


(** The entries of the registry that [remove_published_actor(whom,
    port, cb)] is meant to remove: those of actor [whom], at [port] only
    unless [port] is 0. *)
Definition to_remove (whom : actor_addr) (port : Z)
    (kv : Z * published_actor) : Prop :=
  kv.2.1 = whom ∧ (port = 0 ∨ kv.1 = port).

#[global] Instance to_remove_dec whom port kv :
  Decision (to_remove whom port kv).
Proof. unfold to_remove. apply _. Defined.

(** The direct maps are inverse to each other (section 4.2) and no
    entry is keyed by the invalid handle. *)
Definition direct_consistent (tbl : routing_table) : Prop :=
  (∀ h n, direct_by_hdl_ tbl !! h = Some n ↔ direct_by_nid_ tbl !! n = Some h)
  ∧ direct_by_hdl_ tbl !! invalid_connection_handle = None.

(** ** A small network used to run the definitions

    Node A is the local node; B is connected on handle 7; C is known
    through B; D is unknown. *)
Module Net.

Definition A : node_id := mk_node_id 10 1.
Definition B : node_id := mk_node_id 11 1.
Definition C : node_id := mk_node_id 12 1.
Definition D : node_id := mk_node_id 13 1.

Definition actor_b : actor_addr := Some (mk_actor 3 B).

Definition tbl : routing_table :=
  mk_routing_table {[ 7 := B ]} {[ B := 7 ]} {[ C := {[ B ]} ]}.

(** Messages are kept in serialized form. *)
Definition st : instance buffer_type :=
  mk_instance tbl A
    {[ 4242 := (actor_b, {[ "calc"%string ]});
       4243 := (actor_b, ∅);
       8080 := (Some (mk_actor 5 A), ∅) ]}
    {[ 7 := [Byte.x2a] ]} [].

(** The constraints section 4.1 names: a known operation, no payload on
    a heartbeat. *)
Definition valid (h : header) : bool :=
  (0 <=? operation h) && (operation h <=? heartbeat)
  && (negb (operation h =? heartbeat) || (payload_len h =? 0)).

Definition read_handshake_payload (b : buffer_type)
  : option (actor_id * gset string) :=
  match get_uint 4 b with
  | Some (aid, _) => Some (aid, ∅)
  | None => None
  end.

Definition read_dispatch_payload (b : buffer_type)
  : option (list actor_addr * buffer_type) := Some ([], b).

Definition write_dispatch_payload (fs : list actor_addr) (msg : buffer_type)
  : buffer_type := msg.

Definition payload : buffer_type := [Byte.x01; Byte.x02; Byte.x03].

(** A message from C for D, which A cannot reach. *)
Definition lost_hdr : header := mk_header dispatch_message 3 99 C D 1 2.

(** A message from C for A, arriving over B. *)
Definition local_hdr : header := mk_header dispatch_message 3 99 C A 1 2.

(** A second server handshake of B, with a published actor id. *)
Definition dup_handshake : header := mk_header server_handshake 4 1 B A 0 0.

(** A first server handshake of D. *)
Definition new_handshake : header := mk_header server_handshake 0 1 D A 0 0.

(** A message from D for A, arriving over B. *)
Definition first_hdr : header := mk_header dispatch_message 3 99 D A 1 2.

(** The content of a header cell before the first frame. *)
Definition cell : header := mk_header heartbeat 0 0 A A 0 0.

(** Chunks: a payload on the connection of B, a chunk that is too
    short, the payload of [dup_handshake] on a new connection, and
    [new_handshake] as a header chunk. *)
Definition payload_chunk : new_data_msg := mk_new_data_msg 7 payload.
Definition dup_chunk : new_data_msg := mk_new_data_msg 9 (put_uint 4 77).
Definition new_chunk : new_data_msg :=
  mk_new_data_msg 9 (put_header new_handshake).

(** The state after the connection of B has been cleaned up. *)
Definition closed_st : instance buffer_type :=
  mk_instance (mk_routing_table ∅ ∅ ∅) A (published_actors_ st) (wr_bufs_ st)
              [tbl_erase_direct 7; purge_state B; purge_state C].

End Net.

(** ** The remaining operations of the instance *)

(** The arguments of [notify<hook::actor_published>]. *)
Record actor_published : Type := mk_actor_published {
  ap_addr : actor_addr;
  ap_interface : gset string;
  ap_port : Z
}.

Section Operations.

Context {message : Type}.

(** [basp::version], a constant declared outside the source tree. *)
Variable version : Z.

(** [actor_addr::id()], declared outside the source tree; the source
    applies it to the address of a published actor. *)
Variable addr_id : actor_addr -> actor_id.

(** [sink << pa->second]: the serialization of a set of strings, which
    is not in the source tree. *)
Variable write_sigs : gset string -> buffer_type.

(** [instance::handle_heartbeat]: a heartbeat frame and a flush for
    every entry of [tbl_.direct_by_hdl_], in iteration order. *)
Definition handle_heartbeat (st : instance message) : instance message :=
  foldl (fun (s : instance message) (kvp : connection_handle * node_id) =>
           do_calls
             (set_wr_buf s kvp.1 (write_heartbeat s (wr_buf s kvp.1) kvp.2))
             [broker_flush kvp.1])
        st (map_to_list (direct_by_hdl_ (tbl_ st))).

(** [instance::write(ctx, r, hdr, writer)]: write into the buffer of the
    route, then flush it.  The function starts with
    [CAF_ASSERT(hdr.payload_len == 0 || writer != nullptr)]; a call that
    violates the assertion has no result ([None]). *)
Definition write_to_route (st : instance message) (r : route) (hdr : header)
    (writer : option payload_writer) : option (instance message * header) :=
  if bool_decide (payload_len hdr = 0) || bool_decide (is_Some writer) then
    let '(b, hdr') := write_hdr (wr_buf st (hdl r)) hdr writer in
    Some (do_calls (set_wr_buf st (hdl r) b) [broker_flush (hdl r)], hdr')
  else None.

(** [instance::add_published_actor].  [published_actors_[port]] creates
    the entry if there is none, and the two [swap]s leave the arguments
    in it.  The record of calls has no case for the [actor_published]
    hook; the notification made is the second component. *)
Definition add_published_actor (st : instance message) (port : Z)
    (published_actor : actor_addr) (published_interface : gset string)
  : instance message * actor_published :=
  (set_published_actors st
     (<[port := (published_actor, published_interface)]>
        (published_actors_ st)),
   mk_actor_published published_actor published_interface port).

(** [instance::remove_published_actor(port, cb)]. *)
Definition remove_published_actor_port (st : instance message) (port : Z)
    (cb : bool) : instance message * nat :=
  match published_actors_ st !! port with
  | None => (st, 0%nat)
  | Some pa =>
      let st1 :=
        if cb then do_calls st [removed_published_actor pa.1 port] else st in
      (set_published_actors st1 (delete port (published_actors_ st1)), 1%nat)
  end.

(** [instance::write_server_handshake].  [port] is a [maybe<uint16_t>].
    The payload writer is always passed, and writes nothing when no
    published actor was found. *)
Definition write_server_handshake (st : instance message)
    (out_buf : buffer_type) (port : option Z) : buffer_type :=
  let pa :=
    match port with
    | Some p => published_actors_ st !! p
    | None => None
    end in
  let writer :=
    match pa with
    | Some e => put_uint 4 (addr_id e.1) ++ write_sigs e.2
    | None => []
    end in
  let hdr :=
    mk_header server_handshake 0 version (this_node_ st) invalid_node_id
      (match pa with Some e => addr_id e.1 | None => invalid_actor_id end)
      invalid_actor_id in
  (write_hdr out_buf hdr (Some writer)).1.

End Operations.

Section Delivery.

Context {message : Type}.
Variable valid : header -> bool.
Variable read_handshake_payload : buffer_type -> option (actor_id * gset string).
Variable read_dispatch_payload :
  buffer_type -> option (list actor_addr * message).

(** Modelled from the spec: the broker's hand-over of one frame, which
    is not in the source tree.  Section 6: the first [header_size] bytes
    go to [handle] as a header chunk; if it answers [await_payload], the
    rest goes to it as the payload chunk, with the header cell it
    left. *)
Definition handle_chunks (st : instance message) (c : connection_handle)
    (cell : header) (frame : buffer_type)
  : instance message * header * handle_result :=
  match handle valid read_handshake_payload read_dispatch_payload st
               (mk_new_data_msg c (take header_size frame)) cell false with
  | (st1, hdr, returns await_payload) =>
      handle valid read_handshake_payload read_dispatch_payload st1
             (mk_new_data_msg c (drop header_size frame)) hdr true
  | r => r
  end.

End Delivery.

(** [st'] is [st] after further work of the engine: the local node id
    and the published actors are the same, every write buffer has only
    been appended to, and calls have only been added. *)
Definition only_appends {message : Type} (st st' : instance message) : Prop :=
  this_node_ st' = this_node_ st
  ∧ published_actors_ st' = published_actors_ st
  ∧ (∀ h, wr_buf st h `prefix_of` wr_buf st' h)
  ∧ calls_ st `prefix_of` calls_ st'.

(** ** Two nodes that have not met, and more frames for the network *)
Module Peers.

(** Node A with an actor published at port 4242, node B; neither knows
    the other. *)
Definition stA : instance buffer_type :=
  mk_instance (mk_routing_table ∅ ∅ ∅) Net.A
              {[ 4242 := (Some (mk_actor 3 Net.A), ∅) ]} ∅ [].

Definition stB : instance buffer_type :=
  mk_instance (mk_routing_table ∅ ∅ ∅) Net.B ∅ ∅ [].

Definition version : Z := 1.

Definition addr_id (a : actor_addr) : actor_id :=
  match a with Some x => aa_id x | None => invalid_actor_id end.

Definition write_sigs (sigs : gset string) : buffer_type := [].

(** A frame that claims to come from A itself, for the unknown D. *)
Definition spoofed_hdr : header := mk_header dispatch_message 3 99 Net.A Net.D 1 2.

(** A frame from D for C, which is reached through B. *)
Definition relayed_hdr : header := mk_header dispatch_message 3 99 Net.D Net.C 1 2.

(** A client handshake of D, a heartbeat of B addressed to D, an
    announcement and a payload-less message of B for A, and a header
    with an operation that does not exist. *)
Definition client_hdr : header := mk_header client_handshake 0 0 Net.D Net.A 0 0.
Definition heartbeat_hdr : header := mk_header heartbeat 0 0 Net.B Net.D 0 0.
Definition announce_hdr : header :=
  mk_header announce_proxy_instance 0 0 Net.B Net.A 0 5.
Definition empty_dispatch_hdr : header :=
  mk_header dispatch_message 0 99 Net.B Net.A 1 2.
Definition unknown_hdr : header := mk_header 9 3 0 Net.B Net.A 0 0.

Definition header_chunk (c : connection_handle) (h : header) : new_data_msg :=
  mk_new_data_msg c (put_header h).

End Peers.

(** ** A connection that names a second peer *)
Module Stale.

(** The network after D has sent a client handshake on the connection
    of B. *)
Definition st : instance buffer_type :=
  (handle Net.valid Net.read_handshake_payload Net.read_dispatch_payload
          Net.st (Peers.header_chunk 7 Peers.client_hdr) Net.cell false).1.1.


End Stale.

(** * Properties *)

(** ** The binary codec *)

Section Codec.

Lemma Z_of_byte_of_Z (z : Z) : Z_of_byte (byte_of_Z z) = z mod 256.
Proof.
  unfold Z_of_byte, byte_of_Z.
  assert (Hr : 0 <= z mod 256 < 256) by (apply Z.mod_pos_bound; lia).
  destruct (Byte.of_N (Z.to_N (z mod 256))) as [b|] eqn:E.
  - apply Byte.to_of_N in E. simpl. rewrite E. lia.
  - apply Byte.of_N_None_iff in E. lia.
Qed.

Lemma length_put_uint (k : nat) (z : Z) : length (put_uint k z) = k.
Proof. induction k as [|k IH]; simpl; [reflexivity | by rewrite IH]. Qed.

Lemma get_uint_from_put_uint (k : nat) :
  ∀ (acc z : Z) (rest : buffer_type),
    get_uint_from k acc (put_uint k z ++ rest)
    = Some (acc * 2 ^ (8 * Z.of_nat k) + z mod 2 ^ (8 * Z.of_nat k), rest).
Proof.
  induction k as [|k IH]; intros acc z rest.
  - simpl. rewrite Z.mod_1_r. do 2 f_equal. lia.
  - cbn [put_uint get_uint_from app]. rewrite IH, Z_of_byte_of_Z.
    do 2 f_equal.
    rewrite Z.shiftr_div_pow2 by lia.
    replace (8 * Z.of_nat (S k)) with (8 * Z.of_nat k + 8) by lia.
    rewrite Z.pow_add_r by lia.
    change (2 ^ 8) with 256.
    rewrite (Z.rem_mul_r z (2 ^ (8 * Z.of_nat k)) 256) by lia.
    lia.
Qed.

Lemma get_put_uint (k : nat) (z : Z) (rest : buffer_type) :
  uint_range k z → get_uint k (put_uint k z ++ rest) = Some (z, rest).
Proof.
  intros Hz. unfold get_uint. rewrite get_uint_from_put_uint.
  rewrite Z.mod_small by exact Hz. do 2 f_equal.
Qed.

Lemma length_put_node_id (n : node_id) :
  length (put_node_id n) = (host_id_size + process_id_size)%nat.
Proof. unfold put_node_id. by rewrite length_app, !length_put_uint. Qed.

Lemma get_put_node_id (n : node_id) (rest : buffer_type) :
  node_id_wf n → get_node_id (put_node_id n ++ rest) = Some (n, rest).
Proof.
  intros [Hh Hp]. unfold get_node_id, put_node_id.
  rewrite <- app_assoc, (get_put_uint _ _ _ Hh), (get_put_uint _ _ _ Hp).
  by destruct n.
Qed.

Lemma length_put_header_fields sn dn sa da pl op od :
  length (put_header_fields sn dn sa da pl op od) = header_size.
Proof.
  unfold put_header_fields, header_size.
  rewrite !length_app, !length_put_node_id, !length_put_uint. lia.
Qed.

Lemma length_put_header (h : header) : length (put_header h) = header_size.
Proof. unfold put_header. apply length_put_header_fields. Qed.

(** Reading back a serialized header gives the header and leaves what
    follows it. *)
Lemma get_put_header (h : header) (rest : buffer_type) :
  header_wf h → get_header (put_header h ++ rest) = Some (h, rest).
Proof.
  intros (Hop & Hpl & Hod & Hsn & Hdn & Hsa & Hda).
  unfold get_header, put_header, put_header_fields.
  rewrite <- !app_assoc.
  rewrite (get_put_node_id _ _ Hsn), (get_put_node_id _ _ Hdn).
  rewrite (get_put_uint _ _ _ Hsa), (get_put_uint _ _ _ Hda).
  rewrite (get_put_uint _ _ _ Hpl), (get_put_uint _ _ _ Hop).
  rewrite (get_put_uint _ _ _ Hod).
  by destruct h.
Qed.

Lemma to_uint32_small (z : Z) : uint_range 4 z → to_uint32 z = z.
Proof. intros H. apply Z.mod_small. exact H. Qed.

End Codec.

(** ** The writers *)

Section Writers.

Context {message : Type}.
Implicit Types (st : instance message) (b w : buffer_type) (hdr : header).

Lemma length_placeholder : length placeholder = header_size.
Proof. apply length_replicate. Qed.

(** Storing a header over the reserved region leaves the bytes before
    it and the payload after it as they are. *)
Lemma overwrite_placeholder b w (bytes : buffer_type) :
  length bytes = header_size →
  overwrite ((b ++ placeholder) ++ w) (length b) bytes = b ++ bytes ++ w.
Proof.
  intros Hlen. unfold overwrite.
  rewrite <- app_assoc.
  rewrite take_app_length. f_equal. f_equal.
  rewrite drop_app_ge by lia.
  replace (length b + length bytes - length b)%nat with (length placeholder)
    by (rewrite length_placeholder; lia).
  by rewrite drop_app_length.
Qed.

Lemma write_with_payload b op od sn dn sa da w :
  write b op od sn dn sa da (Some w)
  = (b ++ put_header_fields sn dn sa da
            (to_uint32 (Z.of_nat (length w))) op od ++ w,
     Some (to_uint32 (Z.of_nat (length w)))).
Proof.
  unfold write.
  replace (length ((b ++ placeholder) ++ w) - length (b ++ placeholder))%nat
    with (length w) by (rewrite (length_app (b ++ placeholder)); lia).
  by rewrite overwrite_placeholder by apply length_put_header_fields.
Qed.

Lemma write_hdr_with_payload b hdr w :
  write_hdr b hdr (Some w)
  = (b ++ put_header (set_payload_len hdr (to_uint32 (Z.of_nat (length w))))
       ++ w,
     set_payload_len hdr (to_uint32 (Z.of_nat (length w)))).
Proof. unfold write_hdr. by rewrite write_with_payload. Qed.

Lemma write_hdr_without_payload b hdr :
  write_hdr b hdr None = (b ++ put_header (set_payload_len hdr 0), hdr).
Proof. reflexivity. Qed.

End Writers.

(** ** Framing *)

Section Framing.

Variable valid : header -> bool.

Lemma header_wf_set_payload_len (h : header) (n : Z) :
  header_wf h → uint_range 4 n → header_wf (set_payload_len h n).
Proof.
  destruct h. unfold header_wf, set_payload_len.
  cbn [operation payload_len operation_data source_node dest_node
       source_actor dest_actor].
  tauto.
Qed.

(** A chunk that is a serialized header is read as that header. *)
Lemma handle_framing_header (h : connection_handle) (cell hdr : header) :
  header_wf hdr → valid hdr = true →
  handle_framing valid (mk_new_data_msg h (put_header hdr)) cell false
  = if 0 <? payload_len hdr then incomplete_frame hdr
    else complete_frame hdr None.
Proof.
  intros Hwf Hvalid. unfold handle_framing. cbn [buf].
  rewrite <- (app_nil_r (put_header hdr)), (get_put_header _ _ Hwf).
  by rewrite Hvalid.
Qed.

(** A chunk of [payload_len] bytes is accepted as the payload. *)
Lemma handle_framing_payload (h : connection_handle) (hdr : header)
    (p : buffer_type) :
  Z.of_nat (length p) = payload_len hdr →
  handle_framing valid (mk_new_data_msg h p) hdr true
  = complete_frame hdr (Some p).
Proof.
  intros Hlen. unfold handle_framing. cbn [buf].
  rewrite bool_decide_eq_false_2; [reflexivity | ].
  intros Hne. by apply Hne.
Qed.

(** C6 (framing round trip).  A frame written by [instance::write] with
    a payload writer that emits [p], at most [MAX_PAYLOAD] bytes, is
    [b ++ frame]; the header left in [hdr] is [h] with [payload_len] set
    to the number of payload bytes.  The header deserialization of
    [handle] reads that header from the frame and leaves the payload.
    Handing the frame to [handle] the way the broker does, the header
    chunk first and then the payload chunk, makes [handle] process
    exactly that header and the payload [p] and consumes exactly the
    frame; [handle] gets that far for the headers that pass [valid]. *)
Theorem write_receive_roundtrip (c : connection_handle) (cell h : header)
    (b p more : buffer_type) :
  header_wf h →
  Z.of_nat (length p) <= MAX_PAYLOAD →
  let h' := set_payload_len h (Z.of_nat (length p)) in
  ∃ frame,
    write_hdr b h (Some p) = (b ++ frame, h')
    ∧ get_header (frame ++ more) = Some (h', p ++ more)
    ∧ (valid h' = true →
       receive_frame valid c cell (frame ++ more) = Some (h', p, more)).
Proof.
  intros Hwf Hmax h'.
  assert (Hrange : uint_range 4 (Z.of_nat (length p))).
  { unfold uint_range, MAX_PAYLOAD in *. change (8 * Z.of_nat 4) with 32. lia. }
  assert (Hwf' : header_wf h') by (by apply header_wf_set_payload_len).
  exists (put_header h' ++ p). split; [|split].
  - rewrite write_hdr_with_payload, (to_uint32_small _ Hrange). reflexivity.
  - rewrite <- app_assoc. by apply get_put_header.
  - intros Hvalid. unfold receive_frame. cbv zeta.
    rewrite <- app_assoc, <- (length_put_header h').
    rewrite take_app_length, drop_app_length.
    rewrite handle_framing_header by assumption.
    change (payload_len h') with (Z.of_nat (length p)).
    destruct (0 <? Z.of_nat (length p)) eqn:Hpos.
    + cbv beta iota zeta.
      change (payload_len h') with (Z.of_nat (length p)).
      rewrite Nat2Z.id, take_app_length, drop_app_length.
      by rewrite handle_framing_payload.
    + apply Z.ltb_ge in Hpos. destruct p; [reflexivity | simpl in Hpos; lia].
Qed.

End Framing.

(** ** The routing table *)

Section RoutingTable.

Implicit Types (tbl : routing_table) (h : connection_handle) (n : node_id).

Lemma has_direct_true tbl n :
  has_direct tbl n = true ↔
  ∃ h, direct_by_nid_ tbl !! n = Some h ∧ h ≠ invalid_connection_handle.
Proof.
  unfold has_direct, lookup_direct_nid. rewrite bool_decide_eq_true.
  destruct (direct_by_nid_ tbl !! n) as [h|]; simpl; split.
  - intros Hne. by exists h.
  - by intros (h' & [= <-] & Hne).
  - intros Hne. by destruct Hne.
  - by intros (h' & [=] & _).
Qed.

(** On a connection with a proper handle, the route that the handshake
    has just entered is found. *)
Lemma lookup_after_add_direct tbl h n :
  h ≠ invalid_connection_handle →
  lookup (erase_indirect (add_direct tbl h n) n).1 n = Some (mk_route n h).
Proof.
  intros Hh. unfold lookup.
  assert (Hd : direct_by_nid_ (erase_indirect (add_direct tbl h n) n).1 !! n
               = Some h) by apply lookup_insert_eq.
  assert (Ht : has_direct (erase_indirect (add_direct tbl h n) n).1 n = true).
  { apply has_direct_true. by exists h. }
  rewrite Ht. unfold lookup_direct_nid. by rewrite Hd.
Qed.

(** With the invalid handle the entry is not recognised as a route. *)
Lemma lookup_after_add_direct_invalid tbl n :
  lookup (erase_indirect (add_direct tbl invalid_connection_handle n) n).1 n
  = None.
Proof.
  unfold lookup.
  assert (Hd : direct_by_nid_
                 (erase_indirect (add_direct tbl invalid_connection_handle n) n).1
                 !! n = Some invalid_connection_handle) by apply lookup_insert_eq.
  assert (Ht : has_direct
                 (erase_indirect (add_direct tbl invalid_connection_handle n) n).1
                 n = false).
  { unfold has_direct, lookup_direct_nid. rewrite Hd. reflexivity. }
  rewrite Ht.
  assert (Hi : indirect_
                 (erase_indirect (add_direct tbl invalid_connection_handle n) n).1
                 !! n = None) by apply lookup_delete_eq.
  by rewrite Hi.
Qed.


Lemma erase_direct_by_hdl_subseteq tbl h :
  direct_by_hdl_ (erase_direct tbl h).1 ⊆ direct_by_hdl_ tbl.
Proof.
  unfold erase_direct. destruct (direct_by_hdl_ tbl !! h); simpl.
  - apply delete_subseteq.
  - reflexivity.
Qed.

Lemma erase_direct_by_nid_subseteq tbl h :
  direct_by_nid_ (erase_direct tbl h).1 ⊆ direct_by_nid_ tbl.
Proof.
  unfold erase_direct. destruct (direct_by_hdl_ tbl !! h); simpl.
  - apply delete_subseteq.
  - reflexivity.
Qed.




End RoutingTable.

(** ** The inbound handler *)

Section Handle.

Context {message : Type}.
Variable valid : header -> bool.
Variable read_handshake_payload : buffer_type -> option (actor_id * gset string).
Variable read_dispatch_payload :
  buffer_type -> option (list actor_addr * message).

Implicit Types (st : instance message) (dm : new_data_msg)
  (hdr cell : header) (payload : option buffer_type).

#[local] Abbreviation run_handle :=
  (handle valid read_handshake_payload read_dispatch_payload).
#[local] Abbreviation run_frame :=
  (handle_frame read_handshake_payload read_dispatch_payload).

Lemma new_calls_do_calls st0 st (cs : list (call message)) :
  calls_ st = calls_ st0 → new_calls st0 (do_calls st cs) = cs.
Proof.
  intros E. unfold new_calls, do_calls. cbn. rewrite E.
  apply drop_app_length.
Qed.

Lemma filter_finalize_purge_state (l : list node_id) :
  List.filter is_finalize_handshake (map (@purge_state message) l) = [].
Proof. induction l as [|n l IH]; [reflexivity | exact IH]. Qed.


Lemma wr_buf_set_wr_buf st h (b : buffer_type) :
  wr_buf (set_wr_buf st h b) h = b.
Proof. unfold wr_buf, set_wr_buf. cbn. by rewrite lookup_insert_eq. Qed.

(** Once the framing has settled on a complete frame, [handle] is the
    processing of that frame. *)
Lemma handle_complete_frame st dm cell is_payload hdr payload :
  handle_framing valid dm cell is_payload = complete_frame hdr payload →
  run_handle st dm cell is_payload
  = ((run_frame st dm hdr payload).1, hdr,
     (run_frame st dm hdr payload).2).
Proof.
  intros E. unfold handle. rewrite E.
  by destruct (run_frame st dm hdr payload).
Qed.

Lemma err_eq st h :
  err st h
  = (do_calls (set_tbl st (erase_direct (tbl_ st) h).1)
       (tbl_erase_direct h :: map purge_state (erase_direct (tbl_ st) h).2),
     returns close_connection).
Proof. unfold err. by destruct (erase_direct (tbl_ st) h). Qed.

(** C10 (forwarding leaves the tables alone).  When [handle] takes the
    forwarding branch, that is, the frame is neither a handshake nor a
    heartbeat and is addressed to another node, the routing table and
    the published actors after the call are those before it, whether or
    not a route was found, and the call returns [await_header]. *)
Theorem handle_forwarding_keeps_tables st dm cell is_payload hdr payload :
  handle_framing valid dm cell is_payload = complete_frame hdr payload →
  needs_forwarding st hdr = true →
  tbl_ (run_handle st dm cell is_payload).1.1 = tbl_ st
  ∧ published_actors_ (run_handle st dm cell is_payload).1.1 = published_actors_ st
  ∧ (run_handle st dm cell is_payload).2 = returns await_header.
Proof.
  intros Hframe Hfwd.
  rewrite (handle_complete_frame _ _ _ _ _ _ Hframe).
  unfold handle_frame. rewrite Hfwd. cbn [fst snd].
  unfold handle_forward.
  destruct (lookup (tbl_ st) (dest_node hdr)) as [path|]; [done|].
  destruct (bool_decide (source_node hdr ≠ this_node_ st)); [|done].
  by destruct (lookup (tbl_ st) (source_node hdr)).
Qed.

(** C1 (no route to the destination).  A frame that is neither a
    handshake nor a heartbeat, addressed to another node for which there
    is no route, and whose source is another node with a route
    [reverse_path]: [handle] appends to the write buffer of
    [reverse_path] a [kill_proxy_instance] frame whose [operation_data]
    is [no_route_to_destination] and whose payload is the serialized
    original header followed by the original payload, notifies
    [message_forwarding_failed], and returns [await_header]. *)
Theorem handle_no_route_to_destination st dm cell is_payload hdr payload
    (reverse_path : route) :
  handle_framing valid dm cell is_payload = complete_frame hdr payload →
  is_handshake hdr = false →
  is_heartbeat hdr = false →
  dest_node hdr ≠ this_node_ st →
  lookup (tbl_ st) (dest_node hdr) = None →
  source_node hdr ≠ this_node_ st →
  lookup (tbl_ st) (source_node hdr) = Some reverse_path →
  let original := put_header hdr ++ default [] payload in
  let reply :=
    mk_header kill_proxy_instance (to_uint32 (Z.of_nat (length original)))
              no_route_to_destination (this_node_ st) (source_node hdr)
              invalid_actor_id invalid_actor_id in
  let buf' := wr_buf st (hdl reverse_path) ++ put_header reply ++ original in
  run_handle st dm cell is_payload
  = (do_calls (set_wr_buf st (hdl reverse_path) buf')
       [hook_message_forwarding_failed hdr payload],
     hdr, returns await_header)
  ∧ wr_buf (run_handle st dm cell is_payload).1.1 (hdl reverse_path) = buf'.
Proof.
  intros Hframe Hhs Hhb Hdest Hnone Hsrc Hrev original reply buf'.
  assert (Hrun : run_handle st dm cell is_payload
                 = (do_calls (set_wr_buf st (hdl reverse_path) buf')
                      [hook_message_forwarding_failed hdr payload],
                    hdr, returns await_header)).
  { rewrite (handle_complete_frame _ _ _ _ _ _ Hframe).
    unfold handle_frame, needs_forwarding.
    rewrite Hhs, Hhb, (bool_decide_eq_true_2 _ Hdest). cbn [negb andb fst snd].
    unfold handle_forward.
    rewrite Hnone, (bool_decide_eq_true_2 _ Hsrc), Hrev.
    unfold write_dispatch_error.
    rewrite write_hdr_with_payload. reflexivity. }
  split; [exact Hrun|].
  rewrite Hrun. cbn [fst]. apply wr_buf_set_wr_buf.
Qed.

(** *** Server handshakes *)

Lemma server_handshake_not_forwarded st hdr :
  operation hdr = server_handshake → needs_forwarding st hdr = false.
Proof.
  intros Hop. unfold needs_forwarding, is_handshake. by rewrite Hop.
Qed.

(** The two exits of the [server_handshake] case that drop a redundant
    connection: the callee finalizes, then the cleanup runs. *)
Lemma server_handshake_redundant st dm hdr payload aid sigs :
  operation hdr = server_handshake →
  handshake_payload read_handshake_payload hdr payload = Some (aid, sigs) →
  source_node hdr = this_node_ st
  ∨ has_direct (tbl_ st) (source_node hdr) = true →
  run_frame st dm hdr payload
  = (do_calls (set_tbl st (erase_direct (tbl_ st) (handle_ dm)).1)
       ([finalize_handshake (source_node hdr) aid sigs;
         tbl_erase_direct (handle_ dm)]
        ++ map purge_state (erase_direct (tbl_ st) (handle_ dm)).2),
     returns close_connection).
Proof.
  intros Hop Hpl Hcase.
  unfold handle_frame. rewrite (server_handshake_not_forwarded _ _ Hop).
  unfold handle_operation. rewrite Hop, Hpl. cbn [Z.eqb server_handshake].
  assert (Herr : err (do_calls st [finalize_handshake (source_node hdr) aid sigs])
                     (handle_ dm)
                 = (do_calls (set_tbl st (erase_direct (tbl_ st) (handle_ dm)).1)
                      ([finalize_handshake (source_node hdr) aid sigs;
                        tbl_erase_direct (handle_ dm)]
                       ++ map purge_state
                            (erase_direct (tbl_ st) (handle_ dm)).2),
                    returns close_connection)).
  { rewrite err_eq. cbn [tbl_ do_calls]. f_equal.
    unfold do_calls, set_tbl. cbn. by rewrite <- app_assoc. }
  destruct (bool_decide (source_node hdr = this_node_ st)) eqn:Hself;
    [exact Herr|].
  destruct Hcase as [Hs | Hd].
  - apply bool_decide_eq_false in Hself. contradiction.
  - rewrite Hd. exact Herr.
Qed.

(** C2 (duplicate server handshake).  A [server_handshake] frame from a
    node that already has a direct route: the callee's
    [finalize_handshake] is called once, with the [aid] and [sigs] read
    from the payload, then the cleanup [erase_direct] runs on the
    connection with [purge_state] as callback, and [handle] returns
    [close_connection].  The direct maps afterwards are contained in
    those before: no direct entry was added. *)
Theorem handle_duplicate_server_handshake st dm cell is_payload hdr payload
    aid sigs :
  handle_framing valid dm cell is_payload = complete_frame hdr payload →
  operation hdr = server_handshake →
  has_direct (tbl_ st) (source_node hdr) = true →
  handshake_payload read_handshake_payload hdr payload = Some (aid, sigs) →
  let cleanup := erase_direct (tbl_ st) (handle_ dm) in
  run_handle st dm cell is_payload
  = (do_calls (set_tbl st cleanup.1)
       ([finalize_handshake (source_node hdr) aid sigs;
         tbl_erase_direct (handle_ dm)] ++ map purge_state cleanup.2),
     hdr, returns close_connection)
  ∧ List.filter is_finalize_handshake
      (new_calls st (run_handle st dm cell is_payload).1.1)
    = [finalize_handshake (source_node hdr) aid sigs]
  ∧ direct_by_hdl_ cleanup.1 ⊆ direct_by_hdl_ (tbl_ st)
  ∧ direct_by_nid_ cleanup.1 ⊆ direct_by_nid_ (tbl_ st).
Proof.
  intros Hframe Hop Hdirect Hpl cleanup.
  rewrite (handle_complete_frame _ _ _ _ _ _ Hframe).
  rewrite (server_handshake_redundant _ _ _ _ _ _ Hop Hpl (or_intror Hdirect)).
  cbn [fst snd]. fold cleanup. split; [reflexivity|]. split.
  - rewrite new_calls_do_calls by reflexivity.
    cbn [app List.filter is_finalize_handshake]. f_equal.
    apply filter_finalize_purge_state.
  - split; [apply erase_direct_by_hdl_subseteq | apply erase_direct_by_nid_subseteq].
Qed.

(** C3 (finalize on every outcome).  A [server_handshake] frame whose
    payload can be read makes [handle] call [finalize_handshake] exactly
    once, with the node of the frame and the [aid] and [sigs] read, in
    each of the three outcomes: connection to self, redundant
    connection, and new direct route, that is, the route entered for the
    node is found again.  By [lookup_after_add_direct] it is found on
    every connection with a proper handle. *)
Theorem server_handshake_finalizes_once st dm cell is_payload hdr payload
    aid sigs :
  handle_framing valid dm cell is_payload = complete_frame hdr payload →
  operation hdr = server_handshake →
  handshake_payload read_handshake_payload hdr payload = Some (aid, sigs) →
  source_node hdr = this_node_ st
  ∨ has_direct (tbl_ st) (source_node hdr) = true
  ∨ is_Some (lookup (erase_indirect
                       (add_direct (tbl_ st) (handle_ dm) (source_node hdr))
                       (source_node hdr)).1
                    (source_node hdr)) →
  List.filter is_finalize_handshake
    (new_calls st (run_handle st dm cell is_payload).1.1)
  = [finalize_handshake (source_node hdr) aid sigs].
Proof.
  intros Hframe Hop Hpl Hcase.
  rewrite (handle_complete_frame _ _ _ _ _ _ Hframe). cbn [fst].
  destruct (bool_decide (source_node hdr = this_node_ st)) eqn:Hself.
  { apply bool_decide_eq_true in Hself.
    rewrite (server_handshake_redundant _ _ _ _ _ _ Hop Hpl (or_introl Hself)).
    cbn [fst]. rewrite new_calls_do_calls by reflexivity.
    cbn [app List.filter is_finalize_handshake]. f_equal.
    apply filter_finalize_purge_state. }
  destruct (has_direct (tbl_ st) (source_node hdr)) eqn:Hdirect.
  { rewrite (server_handshake_redundant _ _ _ _ _ _ Hop Hpl (or_intror Hdirect)).
    cbn [fst]. rewrite new_calls_do_calls by reflexivity.
    cbn [app List.filter is_finalize_handshake]. f_equal.
    apply filter_finalize_purge_state. }
  assert (Hl : is_Some (lookup (erase_indirect
                                  (add_direct (tbl_ st) (handle_ dm)
                                              (source_node hdr))
                                  (source_node hdr)).1
                               (source_node hdr))).
  { destruct Hcase as [Hs | [Hd | Hl]]; [| discriminate | exact Hl].
    apply bool_decide_eq_false in Hself. contradiction. }
  destruct Hl as [path Hl].
  unfold handle_frame. rewrite (server_handshake_not_forwarded _ _ Hop).
  unfold handle_operation.
  rewrite Hop, Hpl, Hself, Hdirect. cbn [Z.eqb server_handshake].
  destruct (erase_indirect (add_direct (tbl_ st) (handle_ dm) (source_node hdr))
                           (source_node hdr)) as [tbl2 was_indirect].
  cbn [fst] in Hl. cbn [tbl_ set_tbl]. rewrite Hl. cbn [fst].
  by rewrite new_calls_do_calls by reflexivity.
Qed.

(** The remaining exit of the case: the route entered by the handshake
    is not found again.  It is taken only on the invalid handle, and the
    connection is then closed without a call of [finalize_handshake]. *)
Lemma server_handshake_lookup_failed st dm hdr payload aid sigs :
  operation hdr = server_handshake →
  handshake_payload read_handshake_payload hdr payload = Some (aid, sigs) →
  source_node hdr ≠ this_node_ st →
  has_direct (tbl_ st) (source_node hdr) = false →
  handle_ dm = invalid_connection_handle →
  run_frame st dm hdr payload
  = err (set_tbl st (erase_indirect
                       (add_direct (tbl_ st) (handle_ dm) (source_node hdr))
                       (source_node hdr)).1)
        (handle_ dm).
Proof.
  intros Hop Hpl Hself Hdirect Hh.
  unfold handle_frame. rewrite (server_handshake_not_forwarded _ _ Hop).
  unfold handle_operation.
  rewrite Hop, Hpl, (bool_decide_eq_false_2 _ Hself), Hdirect, Hh.
  cbn [Z.eqb server_handshake].
  pose proof (lookup_after_add_direct_invalid (tbl_ st) (source_node hdr)) as Hl.
  destruct (erase_indirect
              (add_direct (tbl_ st) invalid_connection_handle (source_node hdr))
              (source_node hdr)) as [tbl2 was_indirect].
  cbn [fst] in Hl. cbn [tbl_ set_tbl fst]. by rewrite Hl.
Qed.

(** *** Closing a connection *)



(** *** Dispatch messages *)

(** The calls of the [dispatch_message] case: the discovery upcall if
    its condition holds, then [deliver] if the payload can be read. *)
Lemma dispatch_message_calls st dm hdr payload :
  operation hdr = dispatch_message →
  dest_node hdr = this_node_ st →
  payload_valid hdr payload = true →
  let last_hop := lookup_direct_hdl (tbl_ st) (handle_ dm) in
  new_calls st (run_frame st dm hdr payload).1
  = (if bool_decide (source_node hdr ≠ invalid_node_id)
        && bool_decide (source_node hdr ≠ this_node_ st)
        && bool_decide (last_hop ≠ source_node hdr)
        && negb (has_direct (tbl_ st) (source_node hdr))
        && (add_indirect (tbl_ st) last_hop (source_node hdr)).2
     then [learned_new_node_indirectly (source_node hdr)] else [])
    ++ match read_dispatch_payload (default [] payload) with
       | Some (fs, msg) =>
           [deliver (source_node hdr) (source_actor hdr) (dest_node hdr)
                    (dest_actor hdr) (operation_data hdr) fs msg]
       | None => []
       end.
Proof.
  intros Hop Hdest Hpl last_hop.
  unfold handle_frame, needs_forwarding.
  rewrite (bool_decide_eq_false_2 (dest_node hdr ≠ this_node_ st))
    by (intros Hne; by apply Hne).
  rewrite andb_false_r.
  unfold handle_operation. rewrite Hop, Hpl.
  cbn [Z.eqb Pos.eqb dispatch_message server_handshake client_handshake negb].
  fold last_hop.
  destruct (add_indirect (tbl_ st) last_hop (source_node hdr))
    as [tbl1 added]. cbn [snd].
  destruct (bool_decide (source_node hdr ≠ invalid_node_id)
            && bool_decide (source_node hdr ≠ this_node_ st)
            && bool_decide (last_hop ≠ source_node hdr)
            && negb (has_direct (tbl_ st) (source_node hdr)));
    [destruct added|];
    destruct (read_dispatch_payload (default [] payload)) as [[fs msg]|];
    cbn [andb fst]; unfold new_calls; cbn [calls_ do_calls set_tbl];
    rewrite <- ?app_assoc, ?drop_app_length, ?drop_all; reflexivity.
Qed.

(** C5 (indirect discovery).  For a [dispatch_message] frame addressed
    to the local node and carrying its payload, the callee's
    [learned_new_node_indirectly] is called for a node [n] exactly if
    [n] is the source node of the frame and that node is not the invalid
    node id, not the local node, not the peer of the connection the
    frame arrived on, has no direct route, and [add_indirect] of the
    peer as its next hop returns true. *)
Theorem dispatch_learns_indirectly st dm cell is_payload hdr payload
    (n : node_id) :
  handle_framing valid dm cell is_payload = complete_frame hdr payload →
  operation hdr = dispatch_message →
  dest_node hdr = this_node_ st →
  payload_valid hdr payload = true →
  let last_hop := lookup_direct_hdl (tbl_ st) (handle_ dm) in
  learned_new_node_indirectly n
    ∈ new_calls st (run_handle st dm cell is_payload).1.1
  ↔ n = source_node hdr
    ∧ source_node hdr ≠ invalid_node_id
    ∧ source_node hdr ≠ this_node_ st
    ∧ last_hop ≠ source_node hdr
    ∧ has_direct (tbl_ st) (source_node hdr) = false
    ∧ (add_indirect (tbl_ st) last_hop (source_node hdr)).2 = true.
Proof.
  intros Hframe Hop Hdest Hpl last_hop.
  rewrite (handle_complete_frame _ _ _ _ _ _ Hframe). cbn [fst].
  rewrite (dispatch_message_calls _ _ _ _ Hop Hdest Hpl). fold last_hop.
  rewrite elem_of_app.
  assert (Hdeliver : ¬ learned_new_node_indirectly n
                       ∈ match read_dispatch_payload (default [] payload) with
                         | Some (fs, msg) =>
                             [deliver (source_node hdr) (source_actor hdr)
                                      (dest_node hdr) (dest_actor hdr)
                                      (operation_data hdr) fs msg]
                         | None => []
                         end).
  { destruct (read_dispatch_payload (default [] payload)) as [[fs msg]|].
    - rewrite list_elem_of_singleton. discriminate.
    - apply not_elem_of_nil. }
  destruct (bool_decide (source_node hdr ≠ invalid_node_id)) eqn:H1;
    [apply bool_decide_eq_true in H1 | apply bool_decide_eq_false in H1];
  (destruct (bool_decide (source_node hdr ≠ this_node_ st)) eqn:H2;
    [apply bool_decide_eq_true in H2 | apply bool_decide_eq_false in H2]);
  (destruct (bool_decide (last_hop ≠ source_node hdr)) eqn:H3;
    [apply bool_decide_eq_true in H3 | apply bool_decide_eq_false in H3]);
  destruct (has_direct (tbl_ st) (source_node hdr)) eqn:H4;
  destruct (add_indirect (tbl_ st) last_hop (source_node hdr)).2 eqn:H5;
  cbn [andb negb];
  rewrite ?list_elem_of_singleton, ?elem_of_nil;
  (split;
   [ intros [Hx | Hx]; [| contradiction]; try contradiction;
     injection Hx as ->; by auto 10
   | intros (-> & ? & ? & ? & ? & ?); try contradiction; try discriminate;
     by left ]).
Qed.

End Handle.

(** ** The registry of published actors *)

Section Registry.

Context {message : Type}.
Implicit Types (st : instance message) (whom : actor_addr) (port : Z)
  (m : gmap Z published_actor) (l : list (Z * published_actor)).

(** The loop removes the entries of [whom] among [l], counts them and
    reports each to the callback, in the order of [l]. *)
Lemma remove_published_actor_loop_spec whom (cb : bool) l :
  ∀ st (result : nat),
    let hits := filter (fun kv : Z * published_actor => kv.2.1 = whom) l in
    remove_published_actor_loop whom cb l st result
    = (mk_instance (tbl_ st) (this_node_ st)
         (foldl (fun m kv => delete kv.1 m) (published_actors_ st) hits)
         (wr_bufs_ st)
         (calls_ st ++
            if cb
            then (fun kv => removed_published_actor whom kv.1) <$> hits
            else []),
       (result + length hits)%nat).
Proof.
  induction l as [|[p pa] l IH]; intros st result; cbn zeta.
  - rewrite filter_nil. cbn. rewrite Nat.add_0_r.
    destruct cb; destruct st; cbn; by rewrite app_nil_r.
  - cbn [remove_published_actor_loop]. rewrite filter_cons. cbn [snd fst].
    destruct (decide (pa.1 = whom)) as [Heq|Hne].
    + rewrite (bool_decide_eq_true_2 _ Heq), IH. cbn zeta.
      destruct cb; cbn; rewrite <- ?app_assoc; f_equal; f_equal; lia.
    + rewrite (bool_decide_eq_false_2 _ Hne), IH. reflexivity.
Qed.

Lemma lookup_foldl_delete l m (i : Z) :
  foldl (fun m kv => delete kv.1 m) m l !! i
  = if decide (i ∈ l.*1) then None else m !! i.
Proof.
  revert m. induction l as [|[p pa] l IH]; intros m; cbn [foldl fmap list_fmap fst].
  - rewrite decide_False by apply not_elem_of_nil. reflexivity.
  - rewrite IH. destruct (decide (i ∈ l.*1)) as [Hin|Hnin].
    + rewrite decide_True by (by right). reflexivity.
    + destruct (decide (i = p)) as [->|Hne].
      * rewrite decide_True by left. apply lookup_delete_eq.
      * rewrite decide_False by (rewrite elem_of_cons; tauto).
        by apply lookup_delete_ne.
Qed.

(** The entries of a map that satisfy [P], as a list. *)
Lemma filter_map_to_list (P : Z * published_actor → Prop)
    `{!∀ kv, Decision (P kv)} m :
  filter P (map_to_list m) ≡ₚ map_to_list (filter P m).
Proof.
  apply NoDup_Permutation.
  - apply NoDup_filter, NoDup_map_to_list.
  - apply NoDup_map_to_list.
  - intros [i x]. rewrite list_elem_of_filter, !elem_of_map_to_list.
    rewrite map_lookup_filter_Some. tauto.
Qed.

Lemma to_remove_at_port whom port m (pa : published_actor) :
  port ≠ 0 → m !! port = Some pa → pa.1 = whom →
  filter (to_remove whom port) m = {[ port := pa ]}
  ∧ filter (fun kv => ¬ to_remove whom port kv) m = delete port m.
Proof.
  intros Hport Hm Hwhom. split; apply map_eq; intros i; apply option_eq;
    intros x; rewrite map_lookup_filter_Some; unfold to_remove; cbn [fst snd].
  - rewrite lookup_singleton_Some. split.
    + intros (Hi & _ & [H0 | ->]); [contradiction|]. split; congruence.
    + intros [<- <-]. tauto.
  - rewrite lookup_delete_Some. split.
    + intros (Hi & Hn). split; [|exact Hi].
      intros ->. apply Hn. split; [congruence | by right].
    + intros (Hne & Hi). split; [exact Hi|]. intros (_ & [H0 | ->]); congruence.
Qed.

Lemma to_remove_nothing whom port m :
  port ≠ 0 → (∀ pa, m !! port = Some pa → pa.1 ≠ whom) →
  filter (to_remove whom port) m = ∅
  ∧ filter (fun kv => ¬ to_remove whom port kv) m = m.
Proof.
  intros Hport Hm. split.
  - apply map_eq. intros i. rewrite lookup_empty.
    apply map_lookup_filter_None. right. intros x Hi [Hw Hp].
    cbn [fst snd] in Hw, Hp. destruct Hp as [H0 | ->];
      [contradiction | by apply (Hm x)].
  - apply map_filter_id. intros i x Hi [Hw Hp].
    cbn [fst snd] in Hw, Hp. destruct Hp as [H0 | ->];
      [contradiction | by apply (Hm x)].
Qed.

Lemma new_calls_same st : new_calls st st = [].
Proof. unfold new_calls. apply drop_all. Qed.

(** C8 (removing published actors).  [remove_published_actor(whom,
    port, cb)] leaves exactly the entries that are not of [whom] at the
    given port (any port, if [port] is 0); the count it returns is the
    number of entries removed; a callback that is supplied is called
    once for every removed entry, with [whom] and the port of the entry,
    and not otherwise; and for [port != 0] the count is 1 if the entry
    at [port] is of [whom] and 0 if not. *)
Theorem remove_published_actor_spec st whom port (cb : bool) :
  let r := remove_published_actor st whom port cb in
  let gone := filter (to_remove whom port) (published_actors_ st) in
  published_actors_ r.1
  = filter (fun kv => ¬ to_remove whom port kv) (published_actors_ st)
  ∧ r.2 = size gone
  ∧ new_calls st r.1
    ≡ₚ (if cb
        then (fun kv => removed_published_actor whom kv.1) <$> map_to_list gone
        else [])
  ∧ (port ≠ 0 →
     r.2 = if bool_decide (fst <$> published_actors_ st !! port = Some whom)
           then 1%nat else 0%nat).
Proof.
  cbn zeta. unfold remove_published_actor.
  destruct (decide (port = 0)) as [-> | Hport].
  - (* every entry of [whom] *)
    rewrite bool_decide_eq_false_2 by (intros Hne; by apply Hne).
    rewrite remove_published_actor_loop_spec. cbn zeta. cbn [fst snd].
    cbn [published_actors_].
    set (P := fun kv : Z * published_actor => kv.2.1 = whom).
    assert (Hsame : filter (to_remove whom 0) (published_actors_ st)
                    = filter P (published_actors_ st)).
    { apply map_filter_ext. intros i x _. unfold to_remove, P. tauto. }
    rewrite Hsame.
    pose proof (filter_map_to_list P (published_actors_ st)) as Hperm.
    split; [|split; [|split]].
    + apply map_eq. intros i. rewrite lookup_foldl_delete.
      apply option_eq. intros x. rewrite map_lookup_filter_Some.
      unfold to_remove. cbn [fst snd].
      destruct (decide (i ∈ (filter P (map_to_list (published_actors_ st))).*1))
        as [Hin | Hnin].
      * split; [discriminate|]. intros [Hi Hn]. exfalso.
        apply list_elem_of_fmap in Hin as ([i' x'] & -> & Hin).
        apply list_elem_of_filter in Hin as [HP Hin].
        apply elem_of_map_to_list in Hin. cbn [fst] in Hi.
        rewrite Hin in Hi. injection Hi as <-. apply Hn. by auto.
      * split.
        -- intros Hi. split; [exact Hi|]. intros [Hw _]. apply Hnin.
           apply list_elem_of_fmap. exists (i, x). split; [reflexivity|].
           apply list_elem_of_filter. split; [exact Hw|].
           by apply elem_of_map_to_list.
        -- by intros [Hi _].
    + rewrite Hperm, length_map_to_list. reflexivity.
    + unfold new_calls. cbn [calls_]. rewrite drop_app_length.
      destruct cb; [|reflexivity]. by rewrite Hperm.
    + intros Hne. by destruct Hne.
  - (* the entry at [port] only *)
    rewrite (bool_decide_eq_true_2 _ Hport).
    destruct (published_actors_ st !! port) as [pa|] eqn:Hm.
    + destruct (decide (pa.1 = whom)) as [Hw | Hw].
      * rewrite (bool_decide_eq_true_2 _ Hw). cbn [fst snd].
        destruct (to_remove_at_port _ _ _ _ Hport Hm Hw) as [-> ->].
        rewrite map_size_singleton, map_to_list_singleton.
        split; [by destruct cb|]. split; [reflexivity|]. split.
        -- destruct cb; cbn.
           ++ unfold new_calls. cbn. by rewrite drop_app_length.
           ++ unfold new_calls. cbn. by rewrite drop_all.
        -- intros _. cbn. rewrite Hw. by rewrite bool_decide_eq_true_2.
      * rewrite (bool_decide_eq_false_2 _ Hw). cbn [fst snd].
        destruct (to_remove_nothing whom port (published_actors_ st) Hport)
          as [-> ->].
        { intros pa' Hpa. rewrite Hm in Hpa. by injection Hpa as <-. }
        rewrite map_size_empty, map_to_list_empty, new_calls_same.
        split; [reflexivity|]. split; [reflexivity|]. split.
        -- by destruct cb.
        -- intros _. cbn. rewrite bool_decide_eq_false_2; [reflexivity|].
           intros [= E]. by apply Hw.
    + cbn [fst snd].
      destruct (to_remove_nothing whom port (published_actors_ st) Hport)
        as [-> ->].
      { intros pa'. rewrite Hm. discriminate. }
      rewrite map_size_empty, map_to_list_empty, new_calls_same.
      split; [reflexivity|]. split; [reflexivity|]. split.
      * by destruct cb.
      * intros _. cbn. by rewrite bool_decide_eq_false_2.
Qed.

End Registry.

(** ** Outbound traffic *)

Section Outbound.

Context {message : Type}.
Variable write_dispatch_payload : list actor_addr -> message -> buffer_type.

Implicit Types (st : instance message) (b : buffer_type).

(** C9 (kill-proxy frames).  [write_kill_proxy_instance(buf, dest, aid,
    reason)] appends one serialized header and nothing else: the frame
    has no payload and its [payload_len] is 0, its [source_actor] is
    [aid], and its [operation_data] is [reason], for every [reason] that
    fits the 32 bits the implementation converts it through.  Read back
    as a header with a 64-bit [operation_data], the frame gives these
    values again. *)
Theorem write_kill_proxy_instance_frame st b (dest : node_id)
    (aid : actor_id) (rsn : Z) (rest : buffer_type) :
  uint_range 4 rsn →
  uint_range 4 aid →
  node_id_wf (this_node_ st) →
  node_id_wf dest →
  let hdr := mk_header kill_proxy_instance 0 rsn (this_node_ st) dest
                       aid invalid_actor_id in
  write_kill_proxy_instance st b dest aid rsn = b ++ put_header hdr
  ∧ length (put_header hdr) = header_size
  ∧ get_header (put_header hdr ++ rest) = Some (hdr, rest).
Proof.
  intros Hrsn Haid Hthis Hdest hdr.
  split; [|split].
  - unfold write_kill_proxy_instance.
    rewrite write_hdr_without_payload, (to_uint32_small _ Hrsn). reflexivity.
  - apply length_put_header.
  - apply get_put_header. unfold header_wf, hdr.
    cbn [operation payload_len operation_data source_node dest_node
         source_actor dest_actor].
    repeat split; try apply Hthis; try apply Hdest; try apply Haid;
      try apply Hrsn; try reflexivity; try discriminate.
    destruct Hrsn as [_ Hlt]. eapply Z.lt_trans; [exact Hlt | reflexivity].
Qed.

(** C7 (dispatch).  For a receiver on another node: without a route,
    [dispatch] notifies [message_sending_failed], writes nothing and
    returns false; with a route, it appends to the buffer of the route a
    [dispatch_message] header, with [operation_data] the integer value
    of the message id, followed by the serialized forwarding stack and
    message, flushes the route, notifies [message_sent] and returns
    true. *)
Theorem dispatch_spec st (sender : actor_addr)
    (forwarding_stack : list actor_addr) (receiver : abstract_actor)
    (mid : Z) (msg : message) :
  aa_node receiver ≠ this_node_ st →
  let run := dispatch write_dispatch_payload st sender forwarding_stack
                      receiver mid msg in
  (lookup (tbl_ st) (aa_node receiver) = None →
   run = (do_calls st [hook_message_sending_failed sender receiver mid msg],
          false)
   ∧ wr_bufs_ run.1 = wr_bufs_ st)
  ∧ (∀ path, lookup (tbl_ st) (aa_node receiver) = Some path →
     let payload := write_dispatch_payload forwarding_stack msg in
     let hdr :=
       mk_header dispatch_message (to_uint32 (Z.of_nat (length payload))) mid
         (match sender with Some s => aa_node s | None => this_node_ st end)
         (aa_node receiver)
         (match sender with Some s => aa_id s | None => invalid_actor_id end)
         (aa_id receiver) in
     run = (do_calls
              (set_wr_buf st (hdl path)
                 (wr_buf st (hdl path) ++ put_header hdr ++ payload))
              [broker_flush (hdl path);
               hook_message_sent sender (next_hop path) receiver mid msg],
            true)).
Proof.
  intros _ run. split.
  - intros Hnone. unfold run, dispatch. rewrite Hnone. by split.
  - intros path Hsome payload hdr. unfold run, dispatch. rewrite Hsome.
    by rewrite write_hdr_with_payload.
Qed.

End Outbound.

(** ** The statements on the example network *)

Section Examples.

#[local] Abbreviation net_handle :=
  (handle Net.valid Net.read_handshake_payload Net.read_dispatch_payload).

(** A writes a frame for C and reads it back. *)
Lemma write_receive_roundtrip_witness :
  header_wf Net.local_hdr
  ∧ Net.valid Net.local_hdr = true
  ∧ ∃ frame,
      write_hdr [Byte.x2a] Net.local_hdr (Some Net.payload)
      = ([Byte.x2a] ++ frame, Net.local_hdr)
      ∧ get_header (frame ++ [Byte.xff])
        = Some (Net.local_hdr, Net.payload ++ [Byte.xff])
      ∧ receive_frame Net.valid 7 Net.cell (frame ++ [Byte.xff])
        = Some (Net.local_hdr, Net.payload, [Byte.xff]).
Proof.
  assert (Hwf : header_wf Net.local_hdr) by (vm_compute; intuition discriminate).
  assert (Hmax : Z.of_nat (length Net.payload) <= MAX_PAYLOAD)
    by (vm_compute; discriminate).
  split; [exact Hwf|]. split; [reflexivity|].
  destruct (write_receive_roundtrip Net.valid 7 Net.cell Net.local_hdr
              [Byte.x2a] Net.payload [Byte.xff] Hwf Hmax)
    as (frame & Hw & Hg & Hr).
  exists frame. split; [exact Hw|]. split; [exact Hg|]. by apply Hr.
Defined.

(** C sends a message for the unknown node D through B. *)
Lemma handle_no_route_to_destination_witness :
  lookup Net.tbl Net.D = None
  ∧ lookup Net.tbl Net.C = Some (mk_route Net.B 7)
  ∧ wr_buf (net_handle Net.st Net.payload_chunk Net.lost_hdr true).1.1 7
    = [Byte.x2a]
      ++ put_header (mk_header kill_proxy_instance 72 no_route_to_destination
                               Net.A Net.C 0 0)
      ++ put_header Net.lost_hdr ++ Net.payload.
Proof.
  assert (Hd : lookup (tbl_ Net.st) (dest_node Net.lost_hdr) = None)
    by (vm_compute; reflexivity).
  assert (Hs : lookup (tbl_ Net.st) (source_node Net.lost_hdr)
               = Some (mk_route Net.B 7)) by (vm_compute; reflexivity).
  split; [exact Hd|]. split; [exact Hs|].
  apply (handle_no_route_to_destination Net.valid Net.read_handshake_payload
           Net.read_dispatch_payload Net.st Net.payload_chunk Net.lost_hdr
           true Net.lost_hdr (Some Net.payload) (mk_route Net.B 7));
    try reflexivity; try exact Hd; try exact Hs; vm_compute; discriminate.
Defined.

(** B, already connected on 7, sends a server handshake on 9. *)
Lemma handle_duplicate_server_handshake_witness :
  has_direct Net.tbl Net.B = true
  ∧ net_handle Net.st Net.dup_chunk Net.dup_handshake true
    = (do_calls Net.st [finalize_handshake Net.B 77 ∅; tbl_erase_direct 9],
       Net.dup_handshake, returns close_connection).
Proof.
  assert (Hd : has_direct (tbl_ Net.st) (source_node Net.dup_handshake) = true)
    by (vm_compute; reflexivity).
  split; [exact Hd|].
  apply (handle_duplicate_server_handshake Net.valid Net.read_handshake_payload
           Net.read_dispatch_payload Net.st Net.dup_chunk Net.dup_handshake
           true Net.dup_handshake (Some (put_uint 4 77)) 77 ∅);
    [reflexivity | reflexivity | exact Hd | vm_compute; reflexivity].
Defined.

(** D connects for the first time. *)
Lemma server_handshake_finalizes_once_witness :
  handle_framing Net.valid Net.new_chunk Net.cell false
  = complete_frame Net.new_handshake None
  ∧ lookup (erase_indirect (add_direct Net.tbl 9 Net.D) Net.D).1 Net.D
    = Some (mk_route Net.D 9)
  ∧ List.filter is_finalize_handshake
      (new_calls Net.st (net_handle Net.st Net.new_chunk Net.cell false).1.1)
    = [finalize_handshake Net.D invalid_actor_id ∅].
Proof.
  assert (Hf : handle_framing Net.valid Net.new_chunk Net.cell false
               = complete_frame Net.new_handshake None)
    by (vm_compute; reflexivity).
  split; [exact Hf|]. split; [by apply lookup_after_add_direct|].
  apply (server_handshake_finalizes_once Net.valid Net.read_handshake_payload
           Net.read_dispatch_payload Net.st Net.new_chunk Net.cell false
           Net.new_handshake None invalid_actor_id ∅ Hf);
    [reflexivity | reflexivity |].
  right. right. exists (mk_route Net.D 9). vm_compute. reflexivity.
Defined.


(** D, unknown so far, sends a message for A through B. *)
Lemma dispatch_learns_indirectly_witness :
  (add_indirect Net.tbl Net.B Net.D).2 = true
  ∧ learned_new_node_indirectly Net.D
      ∈ new_calls Net.st
          (net_handle Net.st Net.payload_chunk Net.first_hdr true).1.1.
Proof.
  assert (Hadd : (add_indirect Net.tbl Net.B Net.D).2 = true)
    by (vm_compute; reflexivity).
  split; [exact Hadd|].
  apply (dispatch_learns_indirectly Net.valid Net.read_handshake_payload
           Net.read_dispatch_payload Net.st Net.payload_chunk Net.first_hdr
           true Net.first_hdr (Some Net.payload) Net.D);
    try reflexivity.
  repeat split; try exact Hadd; try (vm_compute; reflexivity);
    vm_compute; discriminate.
Defined.

(** A message for the unknown node D is a frame to forward. *)
Lemma handle_forwarding_keeps_tables_witness :
  needs_forwarding Net.st Net.lost_hdr = true
  ∧ tbl_ (net_handle Net.st Net.payload_chunk Net.lost_hdr true).1.1 = Net.tbl
  ∧ published_actors_
      (net_handle Net.st Net.payload_chunk Net.lost_hdr true).1.1
    = published_actors_ Net.st
  ∧ (net_handle Net.st Net.payload_chunk Net.lost_hdr true).2
    = returns await_header.
Proof.
  assert (Hfwd : needs_forwarding Net.st Net.lost_hdr = true)
    by (vm_compute; reflexivity).
  split; [exact Hfwd|].
  apply (handle_forwarding_keeps_tables Net.valid Net.read_handshake_payload
           Net.read_dispatch_payload Net.st Net.payload_chunk Net.lost_hdr
           true Net.lost_hdr (Some Net.payload));
    [reflexivity | exact Hfwd].
Defined.

(** Unpublishing the actor on B at every port removes its two entries
    and leaves the third. *)
Example remove_published_actor_everywhere :
  (remove_published_actor Net.st Net.actor_b 0 true).2 = 2%nat
  ∧ published_actors_ (remove_published_actor Net.st Net.actor_b 0 true).1
    = {[ 8080 := (Some (mk_actor 5 Net.A), ∅) ]}
  ∧ (remove_published_actor Net.st Net.actor_b 4242 true).2 = 1%nat
  ∧ (remove_published_actor Net.st Net.actor_b 8080 true).2 = 0%nat.
Proof. by vm_compute. Qed.

(** A tells B that the proxy of actor 3 is gone, with exit reason 2. *)
Lemma write_kill_proxy_instance_frame_witness :
  write_kill_proxy_instance Net.st [] Net.B 3 2
  = put_header (mk_header kill_proxy_instance 0 2 Net.A Net.B 3 0)
  ∧ get_header (put_header (mk_header kill_proxy_instance 0 2 Net.A Net.B 3 0))
    = Some (mk_header kill_proxy_instance 0 2 Net.A Net.B 3 0, []).
Proof.
  assert (Hrsn : uint_range 4 2) by (vm_compute; intuition discriminate).
  assert (Haid : uint_range 4 3) by (vm_compute; intuition discriminate).
  assert (Ha : node_id_wf (this_node_ Net.st))
    by (vm_compute; intuition discriminate).
  assert (Hb : node_id_wf Net.B) by (vm_compute; intuition discriminate).
  destruct (write_kill_proxy_instance_frame Net.st [] Net.B 3 2 []
              Hrsn Haid Ha Hb) as (Hw & _ & Hr).
  split; [exact Hw|]. rewrite app_nil_r in Hr. exact Hr.
Defined.

(** A sends a message to actor 3 on C, which is reached through B. *)
Lemma dispatch_spec_witness :
  Net.C ≠ Net.A
  ∧ dispatch Net.write_dispatch_payload Net.st None [] (mk_actor 3 Net.C) 99
             Net.payload
    = (do_calls
         (set_wr_buf Net.st 7
            ([Byte.x2a]
             ++ put_header (mk_header dispatch_message 3 99 Net.A Net.C 0 3)
             ++ Net.payload))
         [broker_flush 7;
          hook_message_sent None Net.B (mk_actor 3 Net.C) 99 Net.payload],
       true).
Proof.
  assert (Hne : aa_node (mk_actor 3 Net.C) ≠ this_node_ Net.st)
    by (vm_compute; discriminate).
  split; [exact Hne|].
  apply (proj2 (dispatch_spec Net.write_dispatch_payload Net.st None []
                  (mk_actor 3 Net.C) 99 Net.payload Hne)
               (mk_route Net.B 7)).
  vm_compute. reflexivity.
Defined.

End Examples.

(** * Further properties *)

(** ** More on the inbound handler *)

Section Inbound.

Context {message : Type}.
Variable valid : header -> bool.
Variable read_handshake_payload : buffer_type -> option (actor_id * gset string).
Variable read_dispatch_payload :
  buffer_type -> option (list actor_addr * message).

Implicit Types (st : instance message) (dm : new_data_msg)
  (hdr cell : header) (payload : option buffer_type).

#[local] Abbreviation run_handle :=
  (handle valid read_handshake_payload read_dispatch_payload).
#[local] Abbreviation run_frame :=
  (handle_frame read_handshake_payload read_dispatch_payload).

Lemma wr_buf_set_tbl st (tbl : routing_table) h :
  wr_buf (set_tbl st tbl) h = wr_buf st h.
Proof. reflexivity. Qed.

Lemma wr_buf_set_wr_buf_ne st h h' (b : buffer_type) :
  h ≠ h' → wr_buf (set_wr_buf st h b) h' = wr_buf st h'.
Proof. intros Hne. unfold wr_buf, set_wr_buf. cbn. by rewrite lookup_insert_ne. Qed.

Lemma local_not_forwarded st hdr :
  dest_node hdr = this_node_ st → needs_forwarding st hdr = false.
Proof.
  intros Hd. unfold needs_forwarding.
  rewrite (bool_decide_eq_false_2 (dest_node hdr ≠ this_node_ st))
    by (intros Hne; by apply Hne).
  apply andb_false_r.
Qed.

(** X1.  A frame to forward for which there is no route, and whose
    source is the local node or a node without a route: nothing is
    written to any buffer and nothing changes but the notification of
    [message_forwarding_failed]; the connection stays open. *)
Theorem handle_drops_unroutable st dm cell is_payload hdr payload :
  handle_framing valid dm cell is_payload = complete_frame hdr payload →
  needs_forwarding st hdr = true →
  lookup (tbl_ st) (dest_node hdr) = None →
  source_node hdr = this_node_ st
  ∨ lookup (tbl_ st) (source_node hdr) = None →
  run_handle st dm cell is_payload
  = (do_calls st [hook_message_forwarding_failed hdr payload],
     hdr, returns await_header).
Proof.
  intros Hframe Hfwd Hnone Hsrc.
  rewrite (handle_complete_frame _ _ _ _ _ _ _ _ _ Hframe).
  unfold handle_frame. rewrite Hfwd. cbn [fst snd].
  unfold handle_forward. rewrite Hnone.
  destruct (bool_decide (source_node hdr ≠ this_node_ st)) eqn:Hb;
    [|reflexivity].
  apply bool_decide_eq_true in Hb.
  destruct Hsrc as [Hs | Hs]; [contradiction|]. by rewrite Hs.
Qed.

(** X2.  A first [server_handshake] of another node on a connection
    with a proper handle: the node becomes a direct peer on that
    connection and loses its indirect entry, a [client_handshake] from
    the local node to the peer is appended to the connection's buffer,
    the callee learns the node ([was_indirect] telling whether there was
    an indirect entry) and finalizes the handshake, the buffer is
    flushed, and the connection stays open. *)
Theorem handle_new_server_handshake st dm cell is_payload hdr payload
    aid sigs :
  handle_framing valid dm cell is_payload = complete_frame hdr payload →
  operation hdr = server_handshake →
  handshake_payload read_handshake_payload hdr payload = Some (aid, sigs) →
  source_node hdr ≠ this_node_ st →
  has_direct (tbl_ st) (source_node hdr) = false →
  handle_ dm ≠ invalid_connection_handle →
  let src := source_node hdr in
  let tbl' :=
    mk_routing_table (<[handle_ dm := src]> (direct_by_hdl_ (tbl_ st)))
                     (<[src := handle_ dm]> (direct_by_nid_ (tbl_ st)))
                     (delete src (indirect_ (tbl_ st))) in
  let reply := mk_header client_handshake 0 0 (this_node_ st) src
                         invalid_actor_id invalid_actor_id in
  run_handle st dm cell is_payload
  = (do_calls
       (set_wr_buf (set_tbl st tbl') (handle_ dm)
          (wr_buf st (handle_ dm) ++ put_header reply))
       [learned_new_node_directly src
          (bool_decide (is_Some (indirect_ (tbl_ st) !! src)));
        finalize_handshake src aid sigs;
        broker_flush (handle_ dm)],
     hdr, returns await_header).
Proof.
  intros Hframe Hop Hpl Hself Hdirect Hh src tbl' reply.
  rewrite (handle_complete_frame _ _ _ _ _ _ _ _ _ Hframe).
  unfold handle_frame. rewrite (server_handshake_not_forwarded _ _ Hop).
  unfold handle_operation.
  rewrite Hop, Hpl, (bool_decide_eq_false_2 _ Hself), Hdirect.
  cbn [Z.eqb server_handshake].
  pose proof (lookup_after_add_direct (tbl_ st) _ (source_node hdr) Hh) as Hl.
  unfold erase_indirect, add_direct in *.
  cbn [fst snd direct_by_hdl_ direct_by_nid_ indirect_] in *.
  cbn [tbl_ set_tbl]. fold src in Hl |- *. fold tbl' in Hl |- *.
  rewrite Hl. reflexivity.
Qed.

(** X3.  A [client_handshake] of a node that has a direct route is
    ignored.  Otherwise the node becomes a direct peer on the connection
    and the callee learns it; no reply is written, and, unlike for a
    [server_handshake], the source is not compared with the local
    node. *)
Theorem handle_client_handshake st dm cell is_payload hdr payload :
  handle_framing valid dm cell is_payload = complete_frame hdr payload →
  operation hdr = client_handshake →
  let src := source_node hdr in
  let tbl' :=
    mk_routing_table (<[handle_ dm := src]> (direct_by_hdl_ (tbl_ st)))
                     (<[src := handle_ dm]> (direct_by_nid_ (tbl_ st)))
                     (delete src (indirect_ (tbl_ st))) in
  run_handle st dm cell is_payload
  = (if has_direct (tbl_ st) src then st
     else do_calls (set_tbl st tbl')
            [learned_new_node_directly src
               (bool_decide (is_Some (indirect_ (tbl_ st) !! src)))],
     hdr, returns await_header).
Proof.
  intros Hframe Hop src tbl'.
  rewrite (handle_complete_frame _ _ _ _ _ _ _ _ _ Hframe).
  unfold handle_frame, needs_forwarding, is_handshake. rewrite Hop.
  cbn [Z.eqb Pos.eqb client_handshake server_handshake orb negb andb].
  unfold handle_operation. rewrite Hop.
  cbn [Z.eqb Pos.eqb client_handshake server_handshake].
  fold src. by destruct (has_direct (tbl_ st) src).
Qed.

(** X4.  A heartbeat is never forwarded: whatever its destination node,
    the frame is handed to the callee's [handle_heartbeat] with the
    source node, nothing is written, and the connection stays open. *)
Theorem handle_heartbeat_frame st dm cell is_payload hdr payload :
  handle_framing valid dm cell is_payload = complete_frame hdr payload →
  operation hdr = heartbeat →
  run_handle st dm cell is_payload
  = (do_calls st [callee_handle_heartbeat (source_node hdr)],
     hdr, returns await_header).
Proof.
  intros Hframe Hop.
  rewrite (handle_complete_frame _ _ _ _ _ _ _ _ _ Hframe).
  unfold handle_frame, needs_forwarding, is_heartbeat. rewrite Hop.
  cbn [Z.eqb Pos.eqb heartbeat negb andb]. rewrite andb_false_r.
  unfold handle_operation. rewrite Hop. reflexivity.
Qed.

(** X5.  The proxy messages addressed to the local node make one upcall
    and change nothing else: [announce_proxy_instance] announces the
    destination actor, [kill_proxy_instance] kills the proxy of the
    source actor with [operation_data] as the exit reason. *)
Theorem handle_proxy_messages st dm cell is_payload hdr payload :
  handle_framing valid dm cell is_payload = complete_frame hdr payload →
  dest_node hdr = this_node_ st →
  (operation hdr = announce_proxy_instance →
   run_handle st dm cell is_payload
   = (do_calls st [proxy_announced (source_node hdr) (dest_actor hdr)],
      hdr, returns await_header))
  ∧ (operation hdr = kill_proxy_instance →
     run_handle st dm cell is_payload
     = (do_calls st [kill_proxy (source_node hdr) (source_actor hdr)
                                (to_uint32 (operation_data hdr))],
        hdr, returns await_header)).
Proof.
  intros Hframe Hdest.
  rewrite (handle_complete_frame _ _ _ _ _ _ _ _ _ Hframe).
  unfold handle_frame. rewrite (local_not_forwarded _ _ Hdest).
  unfold handle_operation. split; intros Hop; by rewrite Hop.
Qed.

(** X6.  A frame addressed to the local node whose operation is none of
    the six message types closes the connection, after the cleanup. *)
Theorem handle_unknown_operation st dm cell is_payload hdr payload :
  handle_framing valid dm cell is_payload = complete_frame hdr payload →
  dest_node hdr = this_node_ st →
  ¬ (server_handshake <= operation hdr <= heartbeat) →
  run_handle st dm cell is_payload
  = ((err st (handle_ dm)).1, hdr, returns close_connection).
Proof.
  intros Hframe Hdest Hop.
  rewrite (handle_complete_frame _ _ _ _ _ _ _ _ _ Hframe).
  unfold handle_frame. rewrite (local_not_forwarded _ _ Hdest).
  unfold handle_operation.
  unfold server_handshake, client_handshake, dispatch_message,
    announce_proxy_instance, kill_proxy_instance, heartbeat in *.
  repeat match goal with
         | |- context [operation hdr =? ?k] =>
             destruct (Z.eqb_spec (operation hdr) k); [lia|]
         end.
  by rewrite err_eq.
Qed.

(** X7.  A [dispatch_message] for the local node whose header announces
    no payload closes the connection: nothing is delivered and no route
    is learned from it. *)
Theorem handle_dispatch_without_payload st dm cell hdr :
  handle_framing valid dm cell false = complete_frame hdr None →
  operation hdr = dispatch_message →
  dest_node hdr = this_node_ st →
  run_handle st dm cell false
  = ((err st (handle_ dm)).1, hdr, returns close_connection).
Proof.
  intros Hframe Hop Hdest.
  rewrite (handle_complete_frame _ _ _ _ _ _ _ _ _ Hframe).
  unfold handle_frame. rewrite (local_not_forwarded _ _ Hdest).
  unfold handle_operation. rewrite Hop.
  cbn [Z.eqb Pos.eqb dispatch_message server_handshake client_handshake
       payload_valid negb].
  by rewrite err_eq.
Qed.

End Inbound.

(** ** Reading, then writing *)

Section Canonical.

Lemma byte_of_Z_of_byte (b : Byte.byte) : byte_of_Z (Z_of_byte b) = b.
Proof.
  unfold byte_of_Z, Z_of_byte.
  pose proof (Byte.to_N_bounded b) as Hb.
  rewrite Z.mod_small by lia.
  by rewrite N2Z.id, Byte.of_to_N.
Qed.

Lemma Z_of_byte_range (b : Byte.byte) : 0 <= Z_of_byte b < 256.
Proof. unfold Z_of_byte. pose proof (Byte.to_N_bounded b). lia. Qed.

(** The number read is the accumulator followed by [k] bytes. *)
Lemma get_uint_from_value (k : nat) :
  ∀ (acc z : Z) (bs rest : buffer_type),
    get_uint_from k acc bs = Some (z, rest) →
    ∃ low, 0 <= low < 2 ^ (8 * Z.of_nat k)
           ∧ z = acc * 2 ^ (8 * Z.of_nat k) + low.
Proof.
  induction k as [|k IH]; intros acc z bs rest Hget.
  - injection Hget as <- _. exists 0. cbn. lia.
  - destruct bs as [|b bs]; [discriminate|]. cbn [get_uint_from] in Hget.
    destruct (IH _ _ _ _ Hget) as (low & Hlow & ->).
    pose proof (Z_of_byte_range b) as Hb.
    exists (Z_of_byte b * 2 ^ (8 * Z.of_nat k) + low).
    replace (8 * Z.of_nat (S k)) with (8 * Z.of_nat k + 8) by lia.
    rewrite Z.pow_add_r by lia. change (2 ^ 8) with 256. nia.
Qed.

(** What was read is what writing the number gives. *)
Lemma put_get_uint_from (k : nat) :
  ∀ (acc z : Z) (bs rest : buffer_type),
    get_uint_from k acc bs = Some (z, rest) → bs = put_uint k z ++ rest.
Proof.
  induction k as [|k IH]; intros acc z bs rest Hget.
  - by injection Hget as _ <-.
  - destruct bs as [|b bs]; [discriminate|]. cbn [get_uint_from] in Hget.
    cbn [put_uint app]. rewrite <- (IH _ _ _ _ Hget). f_equal.
    destruct (get_uint_from_value _ _ _ _ _ Hget) as (low & Hlow & ->).
    pose proof (Z_of_byte_range b) as Hb.
    rewrite Z.shiftr_div_pow2 by lia.
    rewrite Z.div_add_l by lia.
    rewrite (Z.div_small low) by lia. rewrite Z.add_0_r.
    rewrite <- (byte_of_Z_of_byte b) at 1.
    unfold byte_of_Z. do 3 f_equal.
    rewrite Z.add_comm, Z.mod_add by lia. reflexivity.
Qed.

Lemma put_get_uint (k : nat) (z : Z) (bs rest : buffer_type) :
  get_uint k bs = Some (z, rest) → bs = put_uint k z ++ rest.
Proof. apply put_get_uint_from. Qed.

Lemma put_get_node_id (n : node_id) (bs rest : buffer_type) :
  get_node_id bs = Some (n, rest) → bs = put_node_id n ++ rest.
Proof.
  unfold get_node_id, put_node_id.
  destruct (get_uint host_id_size bs) as [[h b1]|] eqn:E1; [|discriminate].
  destruct (get_uint process_id_size b1) as [[p b2]|] eqn:E2; [|discriminate].
  intros [= <- <-]. cbn [host_id process_id].
  apply put_get_uint in E1, E2. subst. by rewrite <- app_assoc.
Qed.

(** The bytes a header was read from are its serialization. *)
Lemma put_get_header (h : header) (bs rest : buffer_type) :
  get_header bs = Some (h, rest) → bs = put_header h ++ rest.
Proof.
  unfold get_header, put_header, put_header_fields.
  destruct (get_node_id bs) as [[sn b1]|] eqn:E1; [|discriminate].
  destruct (get_node_id b1) as [[dn b2]|] eqn:E2; [|discriminate].
  destruct (get_uint 4 b2) as [[sa b3]|] eqn:E3; [|discriminate].
  destruct (get_uint 4 b3) as [[da b4]|] eqn:E4; [|discriminate].
  destruct (get_uint 4 b4) as [[pl b5]|] eqn:E5; [|discriminate].
  destruct (get_uint 1 b5) as [[op b6]|] eqn:E6; [|discriminate].
  destruct (get_uint 8 b6) as [[od b7]|] eqn:E7; [|discriminate].
  intros [= <- <-].
  cbn [source_node dest_node source_actor dest_actor payload_len operation
       operation_data].
  apply put_get_node_id in E1, E2. apply put_get_uint in E3, E4, E5, E6, E7.
  subst. by rewrite <- !app_assoc.
Qed.

End Canonical.

(** ** The handler across its branches *)

Section Relay.

Context {message : Type}.
Variable valid : header -> bool.
Variable read_handshake_payload : buffer_type -> option (actor_id * gset string).
Variable read_dispatch_payload :
  buffer_type -> option (list actor_addr * message).

Implicit Types (st : instance message) (dm : new_data_msg)
  (hdr cell : header) (payload : option buffer_type).

#[local] Abbreviation run_handle :=
  (handle valid read_handshake_payload read_dispatch_payload).

(** X8.  Forwarding relays a frame byte for byte.  A header chunk that
    announces no payload is appended, as received, to the buffer of the
    route to its destination.  A header chunk that announces a payload
    changes nothing and asks for the payload; the payload chunk then
    makes [handle] append the header chunk and the payload chunk, as
    received.  Either way the route is flushed and [message_forwarded]
    is notified. *)
Theorem handle_relays_bytes st (c : connection_handle) cell hdr
    (bytes p : buffer_type) (path : route) :
  get_header bytes = Some (hdr, []) →
  valid hdr = true →
  needs_forwarding st hdr = true →
  lookup (tbl_ st) (dest_node hdr) = Some path →
  (payload_len hdr <= 0 →
   run_handle st (mk_new_data_msg c bytes) cell false
   = (do_calls
        (set_wr_buf st (hdl path) (wr_buf st (hdl path) ++ bytes))
        [broker_flush (hdl path); hook_message_forwarded hdr None],
      hdr, returns await_header))
  ∧ (0 < payload_len hdr →
     Z.of_nat (length p) = payload_len hdr →
     run_handle st (mk_new_data_msg c bytes) cell false
     = (st, hdr, returns await_payload)
     ∧ run_handle st (mk_new_data_msg c p) hdr true
       = (do_calls
            (set_wr_buf st (hdl path) (wr_buf st (hdl path) ++ bytes ++ p))
            [broker_flush (hdl path); hook_message_forwarded hdr (Some p)],
          hdr, returns await_header)).
Proof.
  intros Hget Hvalid Hfwd Hpath.
  pose proof (put_get_header _ _ _ Hget) as Hbytes.
  rewrite app_nil_r in Hbytes.
  assert (Hforward : ∀ dm payload,
            handle_frame read_handshake_payload read_dispatch_payload st
              dm hdr payload
            = (do_calls
                 (set_wr_buf st (hdl path)
                    (wr_buf st (hdl path) ++ bytes ++ default [] payload))
                 [broker_flush (hdl path); hook_message_forwarded hdr payload],
               returns await_header)).
  { intros dm payload. unfold handle_frame. rewrite Hfwd.
    unfold handle_forward. by rewrite Hpath, <- Hbytes. }
  split.
  - intros Hlen. unfold handle, handle_framing. cbn [buf].
    rewrite Hget, Hvalid. cbn [negb].
    rewrite (proj2 (Z.ltb_ge 0 (payload_len hdr)) Hlen).
    rewrite Hforward. cbn [default]. by rewrite app_nil_r.
  - intros Hpos Hlen. split.
    + unfold handle, handle_framing. cbn [buf].
      rewrite Hget, Hvalid. cbn [negb].
      by rewrite (proj2 (Z.ltb_lt 0 (payload_len hdr)) Hpos).
    + unfold handle, handle_framing. cbn [buf].
      rewrite bool_decide_eq_false_2 by (intros Hne; by apply Hne).
      by rewrite Hforward.
Qed.

Lemma only_appends_refl st : only_appends st st.
Proof. by repeat split. Qed.

Lemma only_appends_do_calls st s (cs : list (call message)) :
  only_appends st s → only_appends st (do_calls s cs).
Proof.
  intros (H1 & H2 & H3 & H4). repeat split; try done.
  cbn. by apply prefix_app_r.
Qed.

Lemma only_appends_set_tbl st s (tbl : routing_table) :
  only_appends st s → only_appends st (set_tbl s tbl).
Proof. by intros (H1 & H2 & H3 & H4). Qed.

Lemma only_appends_set_wr_buf st s h (x : buffer_type) :
  only_appends st s → only_appends st (set_wr_buf s h (wr_buf s h ++ x)).
Proof.
  intros (H1 & H2 & H3 & H4). repeat split; try done.
  intros h'. destruct (decide (h = h')) as [<-|Hne].
  - rewrite wr_buf_set_wr_buf. by apply prefix_app_r.
  - rewrite wr_buf_set_wr_buf_ne by done. apply H3.
Qed.

Lemma only_appends_err st s h :
  only_appends st s → only_appends st (err s h).1.
Proof.
  intros H. rewrite err_eq. cbn [fst].
  by apply only_appends_do_calls, only_appends_set_tbl.
Qed.

Ltac appends :=
  cbn [fst write];
  repeat first [ apply only_appends_refl
               | apply only_appends_do_calls
               | apply only_appends_set_tbl
               | apply only_appends_set_wr_buf
               | apply only_appends_err ].

(** X9.  Whatever the chunk, a call of [handle] leaves the local node
    id and the published actors as they are, only appends to write
    buffers, and only adds to the calls made: bytes already handed to a
    write buffer are never changed or removed. *)
Theorem handle_only_appends st dm cell (is_payload : bool) :
  only_appends st (run_handle st dm cell is_payload).1.1.
Proof.
  unfold handle.
  destruct (handle_framing valid dm cell is_payload) as [|hdr|hdr|hdr payload];
    cbn [fst]; try apply only_appends_refl.
  - destruct (err st (handle_ dm)) as [s r] eqn:E. cbn [fst].
    change s with (s, r).1. rewrite <- E. appends.
  - destruct (handle_frame read_handshake_payload read_dispatch_payload st dm
                hdr payload) as [s r] eqn:E. cbn [fst].
    change s with (s, r).1. rewrite <- E. clear E s r.
    unfold handle_frame.
    destruct (needs_forwarding st hdr).
    { cbn [fst]. unfold handle_forward.
      destruct (lookup (tbl_ st) (dest_node hdr)) as [path|]; [appends|].
      destruct (bool_decide (source_node hdr ≠ this_node_ st)); [|appends].
      destruct (lookup (tbl_ st) (source_node hdr)) as [rp|]; [|appends].
      unfold write_dispatch_error. rewrite write_hdr_with_payload. appends. }
    unfold handle_operation.
    destruct (operation hdr =? server_handshake).
    { destruct (handshake_payload read_handshake_payload hdr payload)
        as [[aid sigs]|]; [|appends].
      destruct (bool_decide (source_node hdr = this_node_ st)); [appends|].
      destruct (has_direct (tbl_ st) (source_node hdr)); [appends|].
      destruct (erase_indirect _ _) as [tbl2 was].
      destruct (lookup tbl2 (source_node hdr)) as [path|]; [|appends].
      unfold write_client_handshake. appends. }
    destruct (operation hdr =? client_handshake).
    { destruct (has_direct (tbl_ st) (source_node hdr)); [appends|].
      destruct (erase_indirect _ _) as [tbl2 was]. appends. }
    destruct (operation hdr =? dispatch_message).
    { destruct (negb (payload_valid hdr payload)); [appends|].
      destruct (bool_decide (source_node hdr ≠ invalid_node_id)
                && bool_decide (source_node hdr ≠ this_node_ st)
                && bool_decide (lookup_direct_hdl (tbl_ st) (handle_ dm)
                                ≠ source_node hdr)
                && negb (has_direct (tbl_ st) (source_node hdr))).
      - destruct (add_indirect _ _ _) as [tbl1 added].
        destruct added;
          destruct (read_dispatch_payload (default [] payload)) as [[fs msg]|];
          appends.
      - destruct (read_dispatch_payload (default [] payload)) as [[fs msg]|];
          appends. }
    destruct (operation hdr =? announce_proxy_instance); [appends|].
    destruct (operation hdr =? kill_proxy_instance); [appends|].
    destruct (operation hdr =? heartbeat); appends.
Qed.

End Relay.

(** ** The direct maps stay inverse to each other *)

Section DirectConsistent.

Implicit Types (tbl : routing_table) (h : connection_handle) (n : node_id).

Lemma direct_consistent_indirect tbl (ind : gmap node_id (gset node_id)) :
  direct_consistent tbl →
  direct_consistent
    (mk_routing_table (direct_by_hdl_ tbl) (direct_by_nid_ tbl) ind).
Proof. done. Qed.

Lemma erase_direct_consistent tbl h :
  direct_consistent tbl → direct_consistent (erase_direct tbl h).1.
Proof.
  intros [Hinv Hvalid]. unfold erase_direct.
  destruct (direct_by_hdl_ tbl !! h) as [peer|] eqn:E; cbn [fst]; [|done].
  split; cbn [direct_by_hdl_ direct_by_nid_].
  - intros h' n'. rewrite !lookup_delete_Some, <- Hinv. split.
    + intros [Hne Hh']. split; [|done]. intros ->.
      apply Hinv in E, Hh'. congruence.
    + intros [Hne Hh']. split; [|done]. intros ->. congruence.
  - rewrite lookup_delete_None. by right.
Qed.

Lemma no_direct_no_entry tbl n :
  direct_consistent tbl → has_direct tbl n = false →
  direct_by_nid_ tbl !! n = None.
Proof.
  intros [Hinv Hvalid] Hd.
  destruct (direct_by_nid_ tbl !! n) as [h|] eqn:E; [|done].
  destruct (decide (h = invalid_connection_handle)) as [->|Hne].
  - apply Hinv in E. congruence.
  - assert (has_direct tbl n = true) by (apply has_direct_true; eauto).
    congruence.
Qed.

(** Entering a node without a direct route on a connection that is not
    in the table yet keeps the direct maps inverse to each other. *)
Lemma add_direct_consistent tbl h n :
  direct_consistent tbl →
  direct_by_hdl_ tbl !! h = None →
  h ≠ invalid_connection_handle →
  has_direct tbl n = false →
  direct_consistent (add_direct tbl h n).
Proof.
  intros Hc Hh Hne Hd.
  pose proof (no_direct_no_entry _ _ Hc Hd) as Hn.
  destruct Hc as [Hinv Hvalid].
  split; cbn [add_direct direct_by_hdl_ direct_by_nid_].
  - intros h' n'. rewrite !lookup_insert_Some, <- Hinv. split.
    + intros [[<- <-] | [Hne' Hh']]; [by left|]. right. split; [|done].
      intros <-. apply Hinv in Hh'. congruence.
    + intros [[<- <-] | [Hne' Hh']]; [by left|]. right. split; [|done].
      intros <-. congruence.
  - rewrite lookup_insert_ne by done. exact Hvalid.
Qed.

End DirectConsistent.

Section Invariant.

Context {message : Type}.
Variable valid : header -> bool.
Variable read_handshake_payload : buffer_type -> option (actor_id * gset string).
Variable read_dispatch_payload :
  buffer_type -> option (list actor_addr * message).

Implicit Types (st : instance message) (dm : new_data_msg)
  (hdr cell : header) (payload : option buffer_type).

#[local] Abbreviation run_handle :=
  (handle valid read_handshake_payload read_dispatch_payload).

Lemma tbl_err st h : tbl_ (err st h).1 = (erase_direct (tbl_ st) h).1.
Proof. by rewrite err_eq. Qed.

(** X10.  If the direct maps of the routing table are inverse to each
    other, they still are after a call of [handle], provided that a
    handshake frame arrives only on a connection that has a proper
    handle and is not in the table yet. *)
Theorem handle_keeps_direct_consistent st dm cell (is_payload : bool) :
  direct_consistent (tbl_ st) →
  (∀ hdr payload,
     handle_framing valid dm cell is_payload = complete_frame hdr payload →
     is_handshake hdr = true →
     direct_by_hdl_ (tbl_ st) !! handle_ dm = None
     ∧ handle_ dm ≠ invalid_connection_handle) →
  direct_consistent (tbl_ (run_handle st dm cell is_payload).1.1).
Proof.
  intros Hc Hfresh. unfold handle.
  destruct (handle_framing valid dm cell is_payload)
    as [|hdr|hdr|hdr payload] eqn:Hframe; cbn [fst]; try exact Hc.
  - destruct (err st (handle_ dm)) as [s r] eqn:E. cbn [fst].
    change s with (s, r).1. rewrite <- E, tbl_err.
    by apply erase_direct_consistent.
  - specialize (Hfresh hdr payload eq_refl).
    destruct (handle_frame read_handshake_payload read_dispatch_payload st dm
                hdr payload) as [s r] eqn:E. cbn [fst].
    change s with (s, r).1. rewrite <- E. clear E s r.
    assert (Herr : direct_consistent (tbl_ (err st (handle_ dm)).1))
      by (rewrite tbl_err; by apply erase_direct_consistent).
    assert (Hadd : is_handshake hdr = true →
              has_direct (tbl_ st) (source_node hdr) = false →
              direct_consistent
                (erase_indirect
                   (add_direct (tbl_ st) (handle_ dm) (source_node hdr))
                   (source_node hdr)).1).
    { intros Hhs Hd. destruct (Hfresh Hhs) as [Hnone Hne].
      apply direct_consistent_indirect with
        (tbl := add_direct (tbl_ st) (handle_ dm) (source_node hdr)).
      by apply add_direct_consistent. }
    unfold handle_frame.
    destruct (needs_forwarding st hdr).
    { cbn [fst]. unfold handle_forward.
      destruct (lookup (tbl_ st) (dest_node hdr)) as [path|]; [exact Hc|].
      destruct (bool_decide (source_node hdr ≠ this_node_ st)); [|exact Hc].
      by destruct (lookup (tbl_ st) (source_node hdr)). }
    unfold handle_operation.
    destruct (operation hdr =? server_handshake) eqn:Hs.
    { assert (Hhs : is_handshake hdr = true)
        by (unfold is_handshake; by rewrite Hs).
      destruct (handshake_payload read_handshake_payload hdr payload)
        as [[aid sigs]|]; [|exact Hc].
      destruct (bool_decide (source_node hdr = this_node_ st));
        [rewrite tbl_err; by apply erase_direct_consistent|].
      destruct (has_direct (tbl_ st) (source_node hdr)) eqn:Hd;
        [rewrite tbl_err; by apply erase_direct_consistent|].
      specialize (Hadd Hhs eq_refl).
      destruct (erase_indirect _ _) as [tbl2 was]. cbn [fst] in Hadd.
      destruct (lookup tbl2 (source_node hdr)) as [path|]; [exact Hadd|].
      rewrite tbl_err. by apply erase_direct_consistent. }
    destruct (operation hdr =? client_handshake) eqn:Hcl.
    { assert (Hhs : is_handshake hdr = true)
        by (unfold is_handshake; rewrite Hcl; apply orb_true_r).
      destruct (has_direct (tbl_ st) (source_node hdr)) eqn:Hd; [exact Hc|].
      specialize (Hadd Hhs eq_refl).
      by destruct (erase_indirect _ _) as [tbl2 was]. }
    destruct (operation hdr =? dispatch_message).
    { destruct (negb (payload_valid hdr payload)); [exact Herr|].
      destruct (bool_decide (source_node hdr ≠ invalid_node_id)
                && bool_decide (source_node hdr ≠ this_node_ st)
                && bool_decide (lookup_direct_hdl (tbl_ st) (handle_ dm)
                                ≠ source_node hdr)
                && negb (has_direct (tbl_ st) (source_node hdr))).
      - unfold add_indirect.
        destruct (bool_decide (default ∅ (indirect_ (tbl_ st) !! source_node hdr) = ∅));
          destruct (read_dispatch_payload (default [] payload)) as [[fs msg]|];
          exact Hc.
      - by destruct (read_dispatch_payload (default [] payload)) as [[fs msg]|]. }
    destruct (operation hdr =? announce_proxy_instance); [exact Hc|].
    destruct (operation hdr =? kill_proxy_instance); [exact Hc|].
    destruct (operation hdr =? heartbeat); [exact Hc | exact Herr].
Qed.

End Invariant.

(** ** More on the registry of published actors *)

Section RegistryMore.

Context {message : Type}.
Implicit Types (st : instance message) (whom : actor_addr) (port : Z)
  (m : gmap Z published_actor) (l : list (Z * published_actor)).

Lemma filter_none {A} (P : A → Prop) `{!∀ x, Decision (P x)} (xs : list A) :
  (∀ x, x ∈ xs → ¬ P x) → filter P xs = [].
Proof.
  intros Hno. destruct (filter P xs) as [|x ys] eqn:E; [done|].
  assert (Hx : x ∈ filter P xs) by (rewrite E; left).
  apply list_elem_of_filter in Hx as [HP Hin]. by destruct (Hno x Hin).
Qed.

(** Once the entries of [whom] are deleted, none is left to find. *)
Lemma no_hits_after_removal whom m :
  let P := fun kv : Z * published_actor => kv.2.1 = whom in
  filter P (map_to_list
              (foldl (fun m kv => delete kv.1 m) m (filter P (map_to_list m))))
  = [].
Proof.
  intros P. apply filter_none. intros [i x] Hin HP.
  apply elem_of_map_to_list in Hin. rewrite lookup_foldl_delete in Hin.
  destruct (decide (i ∈ (filter P (map_to_list m)).*1)) as [|Hnin];
    [discriminate|].
  apply Hnin, list_elem_of_fmap. exists (i, x). split; [done|].
  apply list_elem_of_filter. split; [done|]. by apply elem_of_map_to_list.
Qed.

Lemma instance_eta st :
  mk_instance (tbl_ st) (this_node_ st) (published_actors_ st) (wr_bufs_ st)
              (calls_ st) = st.
Proof. by destruct st. Qed.

(** X11.  Removing the published entries of an actor a second time
    removes nothing: the count is 0, the callback is not called and the
    state is the one the first removal left. *)
Theorem remove_published_actor_twice st whom port (cb cb' : bool) :
  remove_published_actor (remove_published_actor st whom port cb).1
                         whom port cb'
  = ((remove_published_actor st whom port cb).1, 0%nat).
Proof.
  unfold remove_published_actor at 2 3.
  destruct (decide (port = 0)) as [-> | Hport].
  - rewrite bool_decide_eq_false_2 by (intros Hne; by apply Hne).
    rewrite remove_published_actor_loop_spec. cbn zeta. cbn [fst].
    unfold remove_published_actor.
    rewrite bool_decide_eq_false_2 by (intros Hne; by apply Hne).
    rewrite remove_published_actor_loop_spec. cbn zeta.
    cbn [published_actors_ tbl_ this_node_ wr_bufs_ calls_].
    rewrite no_hits_after_removal. cbn [foldl length fmap list_fmap].
    f_equal. f_equal. destruct cb'; apply app_nil_r.
  - rewrite (bool_decide_eq_true_2 _ Hport).
    destruct (published_actors_ st !! port) as [pa|] eqn:Hm; cbn [fst].
    + destruct (bool_decide (pa.1 = whom)) eqn:Hw; cbn [fst].
      * unfold remove_published_actor.
        rewrite (bool_decide_eq_true_2 _ Hport).
        destruct cb; cbn [published_actors_ set_published_actors do_calls];
          by rewrite lookup_delete_eq.
      * unfold remove_published_actor.
        by rewrite (bool_decide_eq_true_2 _ Hport), Hm, Hw.
    + unfold remove_published_actor.
      by rewrite (bool_decide_eq_true_2 _ Hport), Hm.
Qed.

(** X12.  For [port != 0] the removal by actor and port is the removal
    by port when the entry at [port] is of that actor, and does nothing
    when it is of another actor or there is none. *)
Theorem remove_published_actor_by_port st whom port (cb : bool) :
  port ≠ 0 →
  remove_published_actor st whom port cb
  = if bool_decide (fst <$> published_actors_ st !! port = Some whom)
    then remove_published_actor_port st port cb
    else (st, 0%nat).
Proof.
  intros Hport. unfold remove_published_actor, remove_published_actor_port.
  rewrite (bool_decide_eq_true_2 _ Hport).
  destruct (published_actors_ st !! port) as [pa|] eqn:Hm; cbn [fmap option_fmap option_map].
  - destruct (decide (pa.1 = whom)) as [Hw | Hw].
    + rewrite (bool_decide_eq_true_2 _ Hw).
      rewrite bool_decide_eq_true_2 by (by rewrite Hw).
      by rewrite Hw.
    + rewrite (bool_decide_eq_false_2 _ Hw).
      rewrite bool_decide_eq_false_2; [done|]. intros [= E]. by apply Hw.
  - by rewrite bool_decide_eq_false_2.
Qed.

(** X13.  Publishing an actor at a port and then removing the port:
    one entry is removed, the callback, if any, is called once with the
    actor just published, whatever was published at the port before,
    and the registry is the original one without the port. *)
Theorem add_then_remove_published_actor st port (a : actor_addr)
    (ifs : gset string) (cb : bool) :
  let st1 := (add_published_actor st port a ifs).1 in
  let r := remove_published_actor_port st1 port cb in
  published_actors_ st1 !! port = Some (a, ifs)
  ∧ r.2 = 1%nat
  ∧ published_actors_ r.1 = delete port (published_actors_ st)
  ∧ new_calls st r.1 = (if cb then [removed_published_actor a port] else []).
Proof.
  cbn zeta. unfold add_published_actor, remove_published_actor_port.
  cbn [fst published_actors_ set_published_actors].
  rewrite lookup_insert_eq. cbn [fst snd]. split; [done|]. split; [done|].
  destruct cb; cbn [published_actors_ set_published_actors do_calls].
  - rewrite delete_insert_eq. split; [done|].
    unfold new_calls. cbn. by rewrite drop_app_length.
  - rewrite delete_insert_eq. split; [done|].
    unfold new_calls. cbn. by rewrite drop_all.
Qed.

(** X14.  Removing a port a second time, or a port that was never
    published, removes nothing and calls nothing. *)
Theorem remove_published_actor_port_twice st port (cb cb' : bool) :
  remove_published_actor_port (remove_published_actor_port st port cb).1
                              port cb'
  = ((remove_published_actor_port st port cb).1, 0%nat)
  ∧ (published_actors_ st !! port = None →
     remove_published_actor_port st port cb = (st, 0%nat)).
Proof.
  split.
  - unfold remove_published_actor_port at 2 3.
    destruct (published_actors_ st !! port) as [pa|] eqn:Hm; cbn [fst].
    + unfold remove_published_actor_port.
      destruct cb; cbn [published_actors_ set_published_actors do_calls];
        by rewrite lookup_delete_eq.
    + unfold remove_published_actor_port. by rewrite ?Hm.
  - intros Hm. unfold remove_published_actor_port, published_actor in *.
    by rewrite Hm.
Qed.

End RegistryMore.

(** ** From one node to another *)

Section EndToEnd.

Context {message : Type}.
Variable valid : header -> bool.
Variable read_handshake_payload : buffer_type -> option (actor_id * gset string).
Variable read_dispatch_payload :
  buffer_type -> option (list actor_addr * message).
Variable write_dispatch_payload : list actor_addr -> message -> buffer_type.
Variable version : Z.
Variable addr_id : actor_addr -> actor_id.
Variable write_sigs : gset string -> buffer_type.

Implicit Types (st : instance message) (dm : new_data_msg)
  (hdr cell : header) (payload : option buffer_type) (c : connection_handle).

#[local] Abbreviation run_frame :=
  (handle_frame read_handshake_payload read_dispatch_payload).
#[local] Abbreviation run_chunks :=
  (handle_chunks valid read_handshake_payload read_dispatch_payload).

Lemma snd_err st h : (err st h).2 = returns close_connection.
Proof. by rewrite err_eq. Qed.

(** The processing of a complete frame never asks for a payload. *)
Lemma handle_frame_no_await_payload st dm hdr payload :
  (run_frame st dm hdr payload).2 ≠ returns await_payload.
Proof.
  unfold handle_frame.
  destruct (needs_forwarding st hdr); [discriminate|].
  unfold handle_operation.
  destruct (operation hdr =? server_handshake).
  { destruct (handshake_payload read_handshake_payload hdr payload)
      as [[aid sigs]|]; [|discriminate].
    destruct (bool_decide (source_node hdr = this_node_ st));
      [by rewrite snd_err|].
    destruct (has_direct (tbl_ st) (source_node hdr)); [by rewrite snd_err|].
    destruct (erase_indirect _ _) as [tbl2 was].
    destruct (lookup tbl2 (source_node hdr)); [discriminate|].
    by rewrite snd_err. }
  destruct (operation hdr =? client_handshake).
  { destruct (has_direct (tbl_ st) (source_node hdr)); [discriminate|].
    by destruct (erase_indirect _ _). }
  destruct (operation hdr =? dispatch_message).
  { destruct (negb (payload_valid hdr payload)); [by rewrite snd_err|].
    by destruct (read_dispatch_payload (default [] payload)) as [[fs msg]|]. }
  destruct (operation hdr =? announce_proxy_instance); [discriminate|].
  destruct (operation hdr =? kill_proxy_instance); [discriminate|].
  destruct (operation hdr =? heartbeat); [discriminate|].
  by rewrite snd_err.
Qed.

(** Handing over a well-formed frame is processing its header with its
    payload, which is null if the header announces none. *)
Lemma handle_chunks_frame st c cell hdr (p : buffer_type) :
  header_wf hdr → valid hdr = true →
  Z.of_nat (length p) = payload_len hdr →
  run_chunks st c cell (put_header hdr ++ p)
  = ((run_frame st (mk_new_data_msg c []) hdr
        (if 0 <? payload_len hdr then Some p else None)).1,
     hdr,
     (run_frame st (mk_new_data_msg c []) hdr
        (if 0 <? payload_len hdr then Some p else None)).2).
Proof.
  intros Hwf Hvalid Hlen. unfold handle_chunks.
  rewrite <- (length_put_header hdr), take_app_length, drop_app_length.
  unfold handle at 1.
  rewrite (handle_framing_header valid c cell hdr Hwf Hvalid).
  destruct (0 <? payload_len hdr) eqn:Hpos.
  - unfold handle.
    rewrite (handle_framing_payload valid c hdr p Hlen).
    change (run_frame st (mk_new_data_msg c p) hdr (Some p))
      with (run_frame st (mk_new_data_msg c []) hdr (Some p)).
    by destruct (run_frame st (mk_new_data_msg c []) hdr (Some p)).
  - pose proof (handle_frame_no_await_payload st
                  (mk_new_data_msg c (put_header hdr)) hdr None) as Hno.
    change (run_frame st (mk_new_data_msg c (put_header hdr)) hdr None)
      with (run_frame st (mk_new_data_msg c []) hdr None) in *.
    destruct (run_frame st (mk_new_data_msg c []) hdr None) as [s r].
    cbn [fst snd] in *. destruct r as [[]|]; try reflexivity.
    by destruct Hno.
Qed.

Lemma wr_buf_do_calls st (cs : list (call message)) h :
  wr_buf (do_calls st cs) h = wr_buf st h.
Proof. reflexivity. Qed.

Lemma node_id_wf_invalid : node_id_wf invalid_node_id.
Proof. by repeat split. Qed.

Lemma uint_range_0 (k : nat) : uint_range k 0.
Proof. unfold uint_range. split; [done|]. apply Z.pow_pos_nonneg; lia. Qed.

Lemma uint_range_length (p : buffer_type) :
  Z.of_nat (length p) <= MAX_PAYLOAD → uint_range 4 (Z.of_nat (length p)).
Proof.
  unfold uint_range, MAX_PAYLOAD. change (8 * Z.of_nat 4) with 32. lia.
Qed.

(** The [server_handshake] case on a new peer, for a complete frame. *)
Lemma frame_new_server_handshake st c hdr payload aid sigs :
  operation hdr = server_handshake →
  handshake_payload read_handshake_payload hdr payload = Some (aid, sigs) →
  source_node hdr ≠ this_node_ st →
  has_direct (tbl_ st) (source_node hdr) = false →
  c ≠ invalid_connection_handle →
  run_frame st (mk_new_data_msg c []) hdr payload
  = (do_calls
       (set_wr_buf
          (set_tbl st
             (mk_routing_table
                (<[c := source_node hdr]> (direct_by_hdl_ (tbl_ st)))
                (<[source_node hdr := c]> (direct_by_nid_ (tbl_ st)))
                (delete (source_node hdr) (indirect_ (tbl_ st)))))
          c
          (wr_buf st c
           ++ put_header (mk_header client_handshake 0 0 (this_node_ st)
                            (source_node hdr) invalid_actor_id
                            invalid_actor_id)))
       [learned_new_node_directly (source_node hdr)
          (bool_decide (is_Some (indirect_ (tbl_ st) !! source_node hdr)));
        finalize_handshake (source_node hdr) aid sigs;
        broker_flush c],
     returns await_header).
Proof.
  intros Hop Hpl Hself Hdirect Hc.
  unfold handle_frame. rewrite (server_handshake_not_forwarded _ _ Hop).
  unfold handle_operation.
  rewrite Hop, Hpl, (bool_decide_eq_false_2 _ Hself), Hdirect.
  cbn [Z.eqb server_handshake handle_].
  pose proof (lookup_after_add_direct (tbl_ st) c (source_node hdr) Hc) as Hl.
  unfold erase_indirect, add_direct in *.
  cbn [fst snd direct_by_hdl_ direct_by_nid_ indirect_] in *.
  cbn [tbl_ set_tbl]. rewrite Hl. reflexivity.
Qed.

(** The [client_handshake] case on a new peer, for a complete frame. *)
Lemma frame_new_client_handshake st c hdr payload :
  operation hdr = client_handshake →
  has_direct (tbl_ st) (source_node hdr) = false →
  run_frame st (mk_new_data_msg c []) hdr payload
  = (do_calls
       (set_tbl st
          (mk_routing_table
             (<[c := source_node hdr]> (direct_by_hdl_ (tbl_ st)))
             (<[source_node hdr := c]> (direct_by_nid_ (tbl_ st)))
             (delete (source_node hdr) (indirect_ (tbl_ st)))))
       [learned_new_node_directly (source_node hdr)
          (bool_decide (is_Some (indirect_ (tbl_ st) !! source_node hdr)))],
     returns await_header).
Proof.
  intros Hop Hdirect.
  unfold handle_frame, needs_forwarding, is_handshake. rewrite Hop.
  cbn [Z.eqb Pos.eqb client_handshake server_handshake orb negb andb].
  unfold handle_operation. rewrite Hop, Hdirect.
  cbn [Z.eqb Pos.eqb client_handshake server_handshake]. reflexivity.
Qed.

Lemma lookup_direct_entry (tbl : routing_table) (n : node_id) c :
  direct_by_nid_ tbl !! n = Some c → c ≠ invalid_connection_handle →
  lookup tbl n = Some (mk_route n c).
Proof.
  intros Hn Hc. unfold lookup.
  assert (Hd : has_direct tbl n = true) by (apply has_direct_true; eauto).
  rewrite Hd. unfold lookup_direct_nid. by rewrite Hn.
Qed.

(** X15.  The handshake between two nodes.  Node A writes a server
    handshake for a port; node B, which has no direct route to A, is
    handed that frame on connection [c] and answers; A, which has no
    direct route to B, is handed the answer on connection [c'].  Both
    connections stay open.  B has learned A directly and has finalized
    the handshake with the id and the interfaces of the actor published
    at the port, or with the invalid id and no interfaces if there is
    none; A has learned B directly, once; and each node now routes to
    the other over its connection. *)
Theorem handshake_exchange (stA stB : instance message) (c c' : connection_handle)
    (cellA cellB : header) (port : option Z) :
  let A := this_node_ stA in
  let B := this_node_ stB in
  let pa :=
    match port with Some p => published_actors_ stA !! p | None => None end in
  let aid := match pa with Some e => addr_id e.1 | None => invalid_actor_id end in
  let sigs : gset string := match pa with Some e => e.2 | None => ∅ end in
  let payload :=
    match pa with
    | Some e => put_uint 4 (addr_id e.1) ++ write_sigs e.2
    | None => []
    end in
  A ≠ B → node_id_wf A → node_id_wf B →
  uint_range 8 version → uint_range 4 aid →
  Z.of_nat (length payload) <= MAX_PAYLOAD →
  (is_Some pa → read_handshake_payload payload = Some (aid, sigs)) →
  valid (mk_header server_handshake (Z.of_nat (length payload)) version A
                   invalid_node_id aid invalid_actor_id) = true →
  valid (mk_header client_handshake 0 0 B A invalid_actor_id invalid_actor_id)
    = true →
  has_direct (tbl_ stB) A = false →
  has_direct (tbl_ stA) B = false →
  c ≠ invalid_connection_handle →
  c' ≠ invalid_connection_handle →
  let rB :=
    run_chunks stB c cellB
      (write_server_handshake version addr_id write_sigs stA [] port) in
  let answer := drop (length (wr_buf stB c)) (wr_buf rB.1.1 c) in
  let rA := run_chunks stA c' cellA answer in
  rB.2 = returns await_header
  ∧ rA.2 = returns await_header
  ∧ new_calls stB rB.1.1
    = [learned_new_node_directly A
         (bool_decide (is_Some (indirect_ (tbl_ stB) !! A)));
       finalize_handshake A aid sigs;
       broker_flush c]
  ∧ new_calls stA rA.1.1
    = [learned_new_node_directly B
         (bool_decide (is_Some (indirect_ (tbl_ stA) !! B)))]
  ∧ lookup (tbl_ rB.1.1) A = Some (mk_route A c)
  ∧ lookup (tbl_ rA.1.1) B = Some (mk_route B c').
Proof.
  intros A B pa aid sigs payload HAB HwfA HwfB Hver Haid Hmax Hread
         HvalidS HvalidC HdB HdA Hc Hc'.
  pose proof (uint_range_length _ Hmax) as Hlen.
  set (hdrS := mk_header server_handshake (Z.of_nat (length payload)) version A
                         invalid_node_id aid invalid_actor_id) in *.
  set (hdrC := mk_header client_handshake 0 0 B A invalid_actor_id
                         invalid_actor_id) in *.
  assert (HwfS : header_wf hdrS).
  { unfold header_wf, hdrS.
    cbn [operation payload_len operation_data source_node dest_node
         source_actor dest_actor].
    split; [by split|]. split; [exact Hlen|]. split; [exact Hver|].
    split; [exact HwfA|]. split; [apply node_id_wf_invalid|].
    split; [exact Haid | apply uint_range_0]. }
  assert (HwfC : header_wf hdrC).
  { unfold header_wf, hdrC.
    cbn [operation payload_len operation_data source_node dest_node
         source_actor dest_actor].
    split; [by split|]. split; [apply uint_range_0|].
    split; [apply uint_range_0|]. split; [exact HwfB|]. split; [exact HwfA|].
    split; apply uint_range_0. }
  assert (HframeS : write_server_handshake version addr_id write_sigs stA []
                                           port
                    = put_header hdrS ++ payload).
  { unfold write_server_handshake. fold pa. fold aid. fold payload.
    rewrite write_hdr_with_payload. cbn [fst app].
    by rewrite (to_uint32_small _ Hlen). }
  assert (HplS : handshake_payload read_handshake_payload hdrS
                   (if 0 <? payload_len hdrS
                    then @Some buffer_type payload else None)
                 = Some (aid, sigs)).
  { unfold handshake_payload, hdrS. cbn [payload_len].
    destruct (0 <? Z.of_nat (length payload)) eqn:Hpos.
    - cbn [payload_valid payload_len default].
      rewrite bool_decide_eq_true_2 by done.
      apply Hread. subst payload. destruct pa; [done|].
      cbn in Hpos. discriminate.
    - cbn [payload_valid]. apply Z.ltb_ge in Hpos.
      subst payload aid sigs. destruct pa as [e|]; [|done].
      rewrite length_app, length_put_uint in Hpos. lia. }
  cbn zeta. rewrite HframeS.
  rewrite (handle_chunks_frame stB c cellB hdrS payload HwfS HvalidS eq_refl).
  rewrite (frame_new_server_handshake stB c hdrS _ aid sigs eq_refl HplS)
    by (cbn [source_node hdrS]; done).
  cbn [fst snd source_node hdrS].
  rewrite wr_buf_do_calls, wr_buf_set_wr_buf, drop_app_length.
  rewrite <- (app_nil_r (put_header _)).
  fold B. fold hdrC.
  rewrite (handle_chunks_frame stA c' cellA hdrC [] HwfC HvalidC eq_refl).
  cbn [payload_len hdrC Z.ltb Z.compare].
  rewrite (frame_new_client_handshake stA c' hdrC None eq_refl)
    by (cbn [source_node hdrC]; done).
  cbn [fst snd source_node hdrC].
  split; [done|]. split; [done|].
  split; [by rewrite new_calls_do_calls|].
  split; [by rewrite new_calls_do_calls|].
  split; apply lookup_direct_entry; try done; apply lookup_insert_eq.
Qed.

(** X16.  A message dispatched by one node is delivered by the next.
    [dispatch] at node A towards a receiver whose node A has a route
    to; the frame it appended to the buffer of the route is handed to
    the receiver's node.  If the payload written is not empty and is
    read back as the forwarding stack and the message, the last call
    made there is [deliver], with the sender's node and id (the node of
    A and the invalid id for a null sender), the receiver's node and id,
    the message id, the forwarding stack and the message; the
    connection stays open. *)
Theorem dispatch_then_deliver (stA stB : instance message)
    (sender : actor_addr) (fs : list actor_addr) (receiver : abstract_actor)
    (mid : Z) (msg : message) (path : route) (c : connection_handle)
    (cell : header) :
  let src := match sender with Some s => aa_node s | None => this_node_ stA end in
  let src_id := match sender with Some s => aa_id s | None => invalid_actor_id end in
  let p := write_dispatch_payload fs msg in
  let hdr := mk_header dispatch_message (Z.of_nat (length p)) mid src
                       (aa_node receiver) src_id (aa_id receiver) in
  lookup (tbl_ stA) (aa_node receiver) = Some path →
  aa_node receiver = this_node_ stB →
  0 < Z.of_nat (length p) <= MAX_PAYLOAD →
  read_dispatch_payload p = Some (fs, msg) →
  header_wf hdr →
  valid hdr = true →
  let stA' := (dispatch write_dispatch_payload stA sender fs receiver mid msg).1 in
  let frame := drop (length (wr_buf stA (hdl path))) (wr_buf stA' (hdl path)) in
  let r := run_chunks stB c cell frame in
  r.2 = returns await_header
  ∧ r.1.2 = hdr
  ∧ last (calls_ r.1.1)
    = Some (deliver src src_id (aa_node receiver) (aa_id receiver) mid fs msg).
Proof.
  intros src src_id p hdr Hpath Hdest [Hpos Hmax] Hread Hwf Hvalid.
  pose proof (uint_range_length _ Hmax) as Hlen.
  cbn zeta. unfold dispatch. rewrite Hpath.
  fold src. fold src_id. fold p.
  rewrite write_hdr_with_payload, (to_uint32_small _ Hlen).
  cbn [fst]. rewrite wr_buf_do_calls, wr_buf_set_wr_buf, drop_app_length.
  change (set_payload_len _ _) with hdr.
  rewrite (handle_chunks_frame stB c cell hdr p Hwf Hvalid eq_refl).
  cbn [fst snd payload_len hdr].
  rewrite (proj2 (Z.ltb_lt 0 (Z.of_nat (length p))) Hpos).
  unfold handle_frame.
  rewrite (local_not_forwarded stB hdr Hdest).
  unfold handle_operation.
  cbn [operation hdr Z.eqb Pos.eqb dispatch_message server_handshake
       client_handshake payload_valid payload_len].
  rewrite bool_decide_eq_true_2 by done. cbn [negb default from_option id].
  rewrite Hread.
  cbn [fst snd source_node dest_node source_actor dest_actor operation_data
       hdr].
  split; [done|]. split; [done|].
  cbn [calls_ do_calls]. apply last_snoc.
Qed.

(** The heartbeat written by a node for [n]. *)
Lemma write_heartbeat_frame st (b : buffer_type) (n : node_id) :
  write_heartbeat st b n
  = b ++ put_header (mk_header heartbeat 0 0 (this_node_ st) n
                               invalid_actor_id invalid_actor_id).
Proof. reflexivity. Qed.

(** The loop of [handle_heartbeat] over entries with distinct handles. *)
Lemma heartbeat_loop (l : list (connection_handle * node_id)) :
  NoDup l.*1 →
  ∀ st,
    let st' :=
      foldl (fun (s : instance message) (kvp : connection_handle * node_id) =>
               do_calls
                 (set_wr_buf s kvp.1 (write_heartbeat s (wr_buf s kvp.1) kvp.2))
                 [broker_flush kvp.1])
            st l in
    tbl_ st' = tbl_ st
    ∧ this_node_ st' = this_node_ st
    ∧ published_actors_ st' = published_actors_ st
    ∧ calls_ st' = calls_ st ++ ((fun kvp => broker_flush kvp.1) <$> l)
    ∧ ∀ h,
        wr_buf st' h
        = wr_buf st h
          ++ match (list_to_map l : gmap connection_handle node_id) !! h with
             | Some n =>
                 put_header (mk_header heartbeat 0 0 (this_node_ st) n
                                       invalid_actor_id invalid_actor_id)
             | None => []
             end.
Proof.
  induction l as [|[k n] l IH]; intros Hnd st; cbn zeta.
  - cbn [foldl fmap list_fmap list_to_map foldr].
    rewrite app_nil_r. repeat split; try done.
    intros h. by rewrite lookup_empty, app_nil_r.
  - cbn [fmap list_fmap fst] in Hnd. apply NoDup_cons in Hnd as [Hk Hnd].
    cbn [foldl fst snd].
    destruct (IH Hnd
                (do_calls
                   (set_wr_buf st k (write_heartbeat st (wr_buf st k) n))
                   [broker_flush k]))
      as (H1 & H2 & H3 & H4 & H5).
    cbn [tbl_ this_node_ published_actors_ calls_ do_calls set_wr_buf]
      in H1, H2, H3, H4.
    split; [exact H1|]. split; [exact H2|]. split; [exact H3|]. split.
    + rewrite H4. cbn [fmap list_fmap fst]. by rewrite <- app_assoc.
    + intros h. rewrite H5. cbn [this_node_ do_calls set_wr_buf].
      rewrite wr_buf_do_calls. cbn [list_to_map foldr fst snd].
      destruct (decide (k = h)) as [<-|Hne].
      * rewrite wr_buf_set_wr_buf, write_heartbeat_frame.
        rewrite (not_elem_of_list_to_map_1 _ _ Hk), app_nil_r.
        by rewrite lookup_insert_eq.
      * rewrite wr_buf_set_wr_buf_ne by done.
        by rewrite lookup_insert_ne.
Qed.

(** X17.  [handle_heartbeat] sends one heartbeat to every direct peer:
    the buffer of each connection in the table grows by a heartbeat
    header from the local node to the peer of that connection and no
    other buffer changes; there is one flush per connection, so as many
    as there are direct peers; the routing table and the registry are
    as before. *)
Theorem handle_heartbeat_fanout st :
  let st' := handle_heartbeat st in
  tbl_ st' = tbl_ st
  ∧ published_actors_ st' = published_actors_ st
  ∧ (∀ h,
       wr_buf st' h
       = wr_buf st h
         ++ match direct_by_hdl_ (tbl_ st) !! h with
            | Some n =>
                put_header (mk_header heartbeat 0 0 (this_node_ st) n
                                      invalid_actor_id invalid_actor_id)
            | None => []
            end)
  ∧ new_calls st st'
    = (fun kvp => broker_flush kvp.1) <$> map_to_list (direct_by_hdl_ (tbl_ st))
  ∧ length (new_calls st st') = size (direct_by_hdl_ (tbl_ st)).
Proof.
  cbn zeta. unfold handle_heartbeat.
  destruct (heartbeat_loop (map_to_list (direct_by_hdl_ (tbl_ st)))
              (NoDup_fst_map_to_list _) st)
    as (H1 & H2 & H3 & H4 & H5).
  assert (Hnew : new_calls st
                   (foldl
                      (fun (s : instance message)
                           (kvp : connection_handle * node_id) =>
                         do_calls
                           (set_wr_buf s kvp.1
                              (write_heartbeat s (wr_buf s kvp.1) kvp.2))
                           [broker_flush kvp.1])
                      st (map_to_list (direct_by_hdl_ (tbl_ st))))
                 = (fun kvp => broker_flush kvp.1)
                     <$> map_to_list (direct_by_hdl_ (tbl_ st))).
  { unfold new_calls. by rewrite H4, drop_app_length. }
  split; [exact H1|]. split; [exact H3|]. split; [|split].
  - intros h. rewrite H5. by rewrite list_to_map_to_list.
  - exact Hnew.
  - by rewrite Hnew, length_fmap, length_map_to_list.
Qed.

(** X18.  A heartbeat sent is a heartbeat received.  The bytes that
    [handle_heartbeat] at node A appends for a direct peer, handed to
    any node, make its callee's [handle_heartbeat] be called with A;
    nothing else changes there and the connection stays open. *)
Theorem heartbeat_then_handle (stA stN : instance message)
    (h c : connection_handle) (n : node_id) (cell : header) :
  let hdr := mk_header heartbeat 0 0 (this_node_ stA) n
                       invalid_actor_id invalid_actor_id in
  direct_by_hdl_ (tbl_ stA) !! h = Some n →
  node_id_wf (this_node_ stA) →
  node_id_wf n →
  valid hdr = true →
  let frame := drop (length (wr_buf stA h)) (wr_buf (handle_heartbeat stA) h) in
  run_chunks stN c cell frame
  = (do_calls stN [callee_handle_heartbeat (this_node_ stA)],
     hdr, returns await_header).
Proof.
  intros hdr Hh HwfA Hwfn Hvalid. cbn zeta.
  assert (Hwf : header_wf hdr).
  { unfold header_wf, hdr.
    cbn [operation payload_len operation_data source_node dest_node
         source_actor dest_actor].
    split; [by split|]. split; [apply uint_range_0|].
    split; [apply uint_range_0|]. split; [exact HwfA|]. split; [exact Hwfn|].
    split; apply uint_range_0. }
  unfold handle_heartbeat.
  destruct (heartbeat_loop (map_to_list (direct_by_hdl_ (tbl_ stA)))
              (NoDup_fst_map_to_list _) stA)
    as (_ & _ & _ & _ & H5).
  rewrite H5, list_to_map_to_list, Hh, drop_app_length.
  fold hdr. rewrite <- (app_nil_r (put_header hdr)).
  rewrite (handle_chunks_frame stN c cell hdr [] Hwf Hvalid eq_refl).
  cbn [payload_len hdr Z.ltb Z.compare].
  unfold handle_frame, needs_forwarding, is_heartbeat.
  cbn [operation hdr Z.eqb Pos.eqb heartbeat negb andb].
  rewrite andb_false_r. reflexivity.
Qed.

End EndToEnd.

(** ** Writing to a route *)

Section Routes.

Context {message : Type}.
Implicit Types (st : instance message) (r : route) (hdr : header).

Lemma set_payload_len_same hdr : set_payload_len hdr (payload_len hdr) = hdr.
Proof. by destruct hdr. Qed.

(** X19.  [write] on a route, called as its assertion requires (the
    header's [payload_len] is 0 or there is a payload writer), appends
    one frame to the buffer of the route and flushes it; no other buffer
    changes.  The header left with the caller is the header on the
    wire: its [payload_len] is the number of payload bytes written, and
    the frame reads back as that header followed by the payload.  A
    call that violates the assertion has no result. *)
Theorem write_to_route_frame st r hdr (writer : option payload_writer)
    (rest : buffer_type) :
  let p := default [] writer in
  let wire := set_payload_len hdr (Z.of_nat (length p)) in
  header_wf hdr →
  Z.of_nat (length p) <= MAX_PAYLOAD →
  (payload_len hdr = 0 ∨ is_Some writer →
   ∃ st',
     write_to_route st r hdr writer = Some (st', wire)
     ∧ wr_buf st' (hdl r) = wr_buf st (hdl r) ++ put_header wire ++ p
     ∧ (∀ h, h ≠ hdl r → wr_buf st' h = wr_buf st h)
     ∧ new_calls st st' = [broker_flush (hdl r)]
     ∧ get_header (put_header wire ++ p ++ rest) = Some (wire, p ++ rest))
  ∧ (payload_len hdr ≠ 0 → writer = None →
     write_to_route st r hdr writer = None).
Proof.
  intros p wire Hwf Hmax.
  assert (Hlen : uint_range 4 (Z.of_nat (length p))).
  { unfold uint_range, MAX_PAYLOAD in *. change (8 * Z.of_nat 4) with 32. lia. }
  split.
  - intros Hassert.
    assert (Hwrite : write_hdr (wr_buf st (hdl r)) hdr writer
                     = (wr_buf st (hdl r) ++ put_header wire ++ p, wire)).
    { subst wire p. destruct writer as [w|]; cbn [default from_option id] in *.
      - by rewrite write_hdr_with_payload, (to_uint32_small _ Hlen).
      - destruct Hassert as [H0 | [w Hw]]; [|discriminate].
        rewrite write_hdr_without_payload. cbn [length].
        rewrite app_nil_r. change (Z.of_nat 0) with 0.
        by rewrite <- H0, set_payload_len_same. }
    assert (Hguard : bool_decide (payload_len hdr = 0)
                     || bool_decide (is_Some writer) = true).
    { destruct Hassert as [H0 | Hw].
      - by rewrite (bool_decide_eq_true_2 _ H0).
      - rewrite (bool_decide_eq_true_2 _ Hw). apply orb_true_r. }
    unfold write_to_route. rewrite Hguard, Hwrite.
    eexists. split; [reflexivity|]. split; [|split; [|split]].
    + apply wr_buf_set_wr_buf.
    + intros h Hne. apply wr_buf_set_wr_buf_ne. congruence.
    + by apply new_calls_do_calls.
    + apply get_put_header. by apply header_wf_set_payload_len.
  - intros Hne ->. unfold write_to_route.
    rewrite (bool_decide_eq_false_2 _ Hne).
    rewrite bool_decide_eq_false_2; [reflexivity|]. by intros [w Hw].
Qed.

End Routes.

(** ** The further statements on the example network *)

Section MoreExamples.

#[local] Abbreviation net_handle :=
  (handle Net.valid Net.read_handshake_payload Net.read_dispatch_payload).
#[local] Abbreviation net_chunks :=
  (handle_chunks Net.valid Net.read_handshake_payload
                 Net.read_dispatch_payload).

Lemma net_direct_consistent : direct_consistent Net.tbl.
Proof.
  split; cbn [Net.tbl direct_by_hdl_ direct_by_nid_].
  - intros h n. rewrite !lookup_singleton_Some. split; by intros [<- <-].
  - by apply lookup_singleton_ne.
Qed.

Lemma handle_drops_unroutable_witness :
  lookup Net.tbl Net.D = None
  ∧ net_handle Net.st Net.payload_chunk Peers.spoofed_hdr true
    = (do_calls Net.st
         [hook_message_forwarding_failed Peers.spoofed_hdr (Some Net.payload)],
       Peers.spoofed_hdr, returns await_header).
Proof.
  assert (Hd : lookup (tbl_ Net.st) (dest_node Peers.spoofed_hdr) = None)
    by (vm_compute; reflexivity).
  split; [exact Hd|].
  apply (handle_drops_unroutable Net.valid Net.read_handshake_payload
           Net.read_dispatch_payload Net.st Net.payload_chunk
           Peers.spoofed_hdr true Peers.spoofed_hdr (Some Net.payload));
    [reflexivity | vm_compute; reflexivity | exact Hd | by left].
Defined.

Lemma handle_new_server_handshake_witness :
  has_direct Net.tbl Net.D = false
  ∧ (net_handle Net.st Net.new_chunk Net.cell false).2 = returns await_header
  ∧ wr_buf (net_handle Net.st Net.new_chunk Net.cell false).1.1 9
    = put_header (mk_header client_handshake 0 0 Net.A Net.D 0 0).
Proof.
  assert (Hd : has_direct (tbl_ Net.st) (source_node Net.new_handshake) = false)
    by (vm_compute; reflexivity).
  split; [exact Hd|].
  rewrite (handle_new_server_handshake Net.valid Net.read_handshake_payload
             Net.read_dispatch_payload Net.st Net.new_chunk Net.cell false
             Net.new_handshake None invalid_actor_id ∅);
    [ | vm_compute; reflexivity | reflexivity | reflexivity
      | vm_compute; discriminate | exact Hd | vm_compute; discriminate ].
  split; [reflexivity|]. vm_compute. reflexivity.
Defined.

Lemma handle_client_handshake_witness :
  net_handle Net.st (Peers.header_chunk 9 Peers.client_hdr) Net.cell false
  = (do_calls
       (set_tbl Net.st
          (mk_routing_table {[ 7 := Net.B; 9 := Net.D ]}
                            {[ Net.B := 7; Net.D := 9 ]}
                            {[ Net.C := {[ Net.B ]} ]}))
       [learned_new_node_directly Net.D false],
     Peers.client_hdr, returns await_header).
Proof.
  rewrite (handle_client_handshake Net.valid Net.read_handshake_payload
             Net.read_dispatch_payload Net.st
             (Peers.header_chunk 9 Peers.client_hdr) Net.cell false
             Peers.client_hdr None);
    [ | vm_compute; reflexivity | reflexivity ].
  vm_compute. reflexivity.
Defined.

Lemma handle_heartbeat_frame_witness :
  dest_node Peers.heartbeat_hdr ≠ this_node_ Net.st
  ∧ net_handle Net.st (Peers.header_chunk 7 Peers.heartbeat_hdr) Net.cell false
    = (do_calls Net.st [callee_handle_heartbeat Net.B],
       Peers.heartbeat_hdr, returns await_header).
Proof.
  split; [vm_compute; discriminate|].
  apply (handle_heartbeat_frame Net.valid Net.read_handshake_payload
           Net.read_dispatch_payload Net.st
           (Peers.header_chunk 7 Peers.heartbeat_hdr) Net.cell false
           Peers.heartbeat_hdr None);
    [vm_compute; reflexivity | reflexivity].
Defined.

Lemma handle_proxy_messages_witness :
  net_handle Net.st (Peers.header_chunk 7 Peers.announce_hdr) Net.cell false
  = (do_calls Net.st [proxy_announced Net.B 5],
     Peers.announce_hdr, returns await_header).
Proof.
  apply (proj1 (handle_proxy_messages Net.valid Net.read_handshake_payload
                  Net.read_dispatch_payload Net.st
                  (Peers.header_chunk 7 Peers.announce_hdr) Net.cell false
                  Peers.announce_hdr None
                  ltac:(vm_compute; reflexivity) eq_refl)).
  reflexivity.
Defined.

Lemma handle_unknown_operation_witness :
  net_handle Net.st Net.payload_chunk Peers.unknown_hdr true
  = (Net.closed_st, Peers.unknown_hdr, returns close_connection).
Proof.
  rewrite (handle_unknown_operation Net.valid Net.read_handshake_payload
             Net.read_dispatch_payload Net.st Net.payload_chunk
             Peers.unknown_hdr true Peers.unknown_hdr (Some Net.payload));
    [ | reflexivity | reflexivity | vm_compute; intuition discriminate ].
  vm_compute. reflexivity.
Defined.

Lemma handle_dispatch_without_payload_witness :
  net_handle Net.st (Peers.header_chunk 7 Peers.empty_dispatch_hdr) Net.cell
             false
  = (Net.closed_st, Peers.empty_dispatch_hdr, returns close_connection).
Proof.
  rewrite (handle_dispatch_without_payload Net.valid
             Net.read_handshake_payload Net.read_dispatch_payload Net.st
             (Peers.header_chunk 7 Peers.empty_dispatch_hdr) Net.cell
             Peers.empty_dispatch_hdr);
    [ | vm_compute; reflexivity | reflexivity | reflexivity ].
  vm_compute. reflexivity.
Defined.

Lemma handle_relays_bytes_witness :
  lookup Net.tbl Net.C = Some (mk_route Net.B 7)
  ∧ net_handle Net.st (Peers.header_chunk 7 Peers.relayed_hdr) Net.cell false
    = (Net.st, Peers.relayed_hdr, returns await_payload)
  ∧ wr_buf (net_handle Net.st Net.payload_chunk Peers.relayed_hdr true).1.1 7
    = [Byte.x2a] ++ put_header Peers.relayed_hdr ++ Net.payload.
Proof.
  assert (Hp : lookup (tbl_ Net.st) (dest_node Peers.relayed_hdr)
               = Some (mk_route Net.B 7)) by (vm_compute; reflexivity).
  split; [exact Hp|].
  destruct (proj2 (handle_relays_bytes Net.valid Net.read_handshake_payload
                     Net.read_dispatch_payload Net.st 7 Net.cell
                     Peers.relayed_hdr (put_header Peers.relayed_hdr)
                     Net.payload (mk_route Net.B 7)
                     ltac:(vm_compute; reflexivity) eq_refl
                     ltac:(vm_compute; reflexivity) Hp)
                  eq_refl eq_refl) as [H1 H2].
  split; [exact H1|].
  change Net.payload_chunk with (mk_new_data_msg 7 Net.payload).
  rewrite H2. apply wr_buf_set_wr_buf.
Defined.

Lemma handle_keeps_direct_consistent_witness :
  direct_consistent Net.tbl
  ∧ direct_consistent
      (tbl_ (net_handle Net.st Net.new_chunk Net.cell false).1.1).
Proof.
  split; [exact net_direct_consistent|].
  apply (handle_keeps_direct_consistent Net.valid Net.read_handshake_payload
           Net.read_dispatch_payload Net.st Net.new_chunk Net.cell false
           net_direct_consistent).
  intros hdr payload _ _. split; [vm_compute; reflexivity | vm_compute; discriminate].
Defined.

Lemma remove_published_actor_by_port_witness :
  remove_published_actor Net.st Net.actor_b 4242 true
  = remove_published_actor_port Net.st 4242 true.
Proof.
  rewrite (remove_published_actor_by_port Net.st Net.actor_b 4242 true)
    by (vm_compute; discriminate).
  reflexivity.
Defined.

Lemma handshake_exchange_witness :
  let rB :=
    net_chunks Peers.stB 7 Net.cell
      (write_server_handshake Peers.version Peers.addr_id Peers.write_sigs
                              Peers.stA [] (Some 4242)) in
  new_calls Peers.stB rB.1.1
  = [learned_new_node_directly Net.A false; finalize_handshake Net.A 3 ∅;
     broker_flush 7]
  ∧ lookup (tbl_ rB.1.1) Net.A = Some (mk_route Net.A 7)
  ∧ lookup
      (tbl_ (net_chunks Peers.stA 8 Net.cell
               (drop (length (wr_buf Peers.stB 7)) (wr_buf rB.1.1 7))).1.1)
      Net.B
    = Some (mk_route Net.B 8).
Proof.
  cbn zeta.
  destruct (handshake_exchange Net.valid Net.read_handshake_payload
              Net.read_dispatch_payload Peers.version Peers.addr_id
              Peers.write_sigs Peers.stA Peers.stB 7 8 Net.cell Net.cell
              (Some 4242))
    as (_ & _ & HB & _ & HlB & HlA);
    [ first [ vm_compute; reflexivity
            | intros _; vm_compute; reflexivity
            | vm_compute; intuition discriminate ] ..
    | split; [exact HB|]; split; [exact HlB | exact HlA] ].
Defined.

Lemma dispatch_then_deliver_witness :
  lookup Net.tbl Net.B = Some (mk_route Net.B 7)
  ∧ last (calls_
            (net_chunks Peers.stB 5 Net.cell
               (drop (length (wr_buf Net.st 7))
                  (wr_buf (dispatch Net.write_dispatch_payload Net.st None []
                                    (mk_actor 3 Net.B) 99 Net.payload).1
                          7))).1.1)
    = Some (deliver Net.A invalid_actor_id Net.B 3 99 [] Net.payload).
Proof.
  assert (Hp : lookup (tbl_ Net.st) (aa_node (mk_actor 3 Net.B))
               = Some (mk_route Net.B 7)) by (vm_compute; reflexivity).
  split; [exact Hp|].
  apply (dispatch_then_deliver Net.valid Net.read_handshake_payload
           Net.read_dispatch_payload Net.write_dispatch_payload
           Net.st Peers.stB None [] (mk_actor 3 Net.B) 99 Net.payload
           (mk_route Net.B 7) 5 Net.cell Hp);
    try reflexivity; vm_compute; intuition discriminate.
Defined.

Lemma heartbeat_then_handle_witness :
  direct_by_hdl_ Net.tbl !! 7 = Some Net.B
  ∧ net_chunks Peers.stB 5 Net.cell
      (drop (length (wr_buf Net.st 7))
            (wr_buf (handle_heartbeat Net.st) 7))
    = (do_calls Peers.stB [callee_handle_heartbeat Net.A],
       mk_header heartbeat 0 0 Net.A Net.B 0 0, returns await_header).
Proof.
  assert (Hh : direct_by_hdl_ (tbl_ Net.st) !! 7 = Some Net.B)
    by (vm_compute; reflexivity).
  split; [exact Hh|].
  apply (heartbeat_then_handle Net.valid Net.read_handshake_payload
           Net.read_dispatch_payload Net.st Peers.stB 7 5 Net.B Net.cell Hh);
    try reflexivity; vm_compute; intuition discriminate.
Defined.

Lemma write_to_route_frame_witness :
  header_wf Net.local_hdr
  ∧ ∃ st',
      write_to_route Net.st (mk_route Net.B 7) Net.local_hdr (Some Net.payload)
      = Some (st', Net.local_hdr)
      ∧ wr_buf st' 7 = [Byte.x2a] ++ put_header Net.local_hdr ++ Net.payload.
Proof.
  assert (Hwf : header_wf Net.local_hdr) by (vm_compute; intuition discriminate).
  split; [exact Hwf|].
  destruct (proj1 (write_to_route_frame Net.st (mk_route Net.B 7)
                     Net.local_hdr (Some Net.payload) [] Hwf
                     ltac:(vm_compute; discriminate))
                  (or_intror (ex_intro _ Net.payload eq_refl)))
    as (st' & Hrun & Hbuf & _).
  exists st'. split; [exact Hrun | exact Hbuf].
Defined.


End MoreExamples.
